(** * DOS 3.3 disk images: [make_disk_image.py] and [verify_disk.py]

    A shallow embedding of the two disk tools under [scripts/disk-tools]:
    the [DiskImage] class (sector addressing, [format_dos33],
    [add_file_dos33], [save]) and the verifier [verify_disk_image].

    Python values are modelled as follows.
    - [int] is [Z]; [//] and [%] by a positive divisor are [Z.div] and
      [Z.modulo]; [<<], [&], [~] are [Z.shiftl], [Z.land], [Z.lnot].
    - [bytes] and [bytearray] are [list Z] with every element in [0, 256).
    - Indexing and slicing follow Python: a negative index counts from
      the end, slices clamp to the sequence, an index out of range raises
      [IndexError].
    - [raise] is the left injection of [exn + A].
    - [print] appends one [line] to the standard output kept in [World];
      a line records which [print] statement ran and the values it
      interpolates, not the rendered text.
    - The file system is a finite map from paths to file contents; a
      path is the string that names it. Writing a file always succeeds,
      and [disk_path.name] is printed as the path itself.
    - [str] is [string]; file and disk names are taken to be ASCII, so
      that [len] and slicing count characters.
    - A method that mutates [self] returns the mutated object. *)

From stdpp Require Import base numbers list strings gmap sorting.
From Stdlib Require Import Ascii.

Local Open Scope Z_scope.

(** ** Python sequences *)

Abbreviation bytes := (list Z).

Definition len {A} (l : list A) : Z := Z.of_nat (length l).

Inductive value_error :=
  | InvalidTrackSector (track sector : Z)  (* f"Invalid track {track} sector {sector}" *)
  | DataTooLarge (n : Z)                   (* f"Data too large: {len(data)} bytes" *)
  | ByteRange.                             (* byte must be in range(0, 256) *)

Inductive exn :=
  | ValueError (e : value_error)
  | IndexError
  | FileNotFoundError (path : string).

(** The error kinds of the specification, as the exceptions the code
    raises for them. *)
Definition OutOfRange (track sector : Z) : exn := ValueError (InvalidTrackSector track sector).
Definition SectorOverflow (n : Z) : exn := ValueError (DataTooLarge n).

(** [bytearray(n)]: [n] zero bytes. *)
Definition bytearray (n : Z) : bytes := replicate (Z.to_nat n) 0.

(** A slice bound [i] of a sequence of length [n], as Python adjusts it. *)
Definition slice_index (n i : Z) : Z :=
  if i <? 0 then Z.max (i + n) 0 else Z.min i n.

(** [l[start:stop]] *)
Definition getslice {A} (l : list A) (start stop : Z) : list A :=
  let a := slice_index (len l) start in
  let b := slice_index (len l) stop in
  take (Z.to_nat (b - a)) (drop (Z.to_nat a) l).

(** [l[start:stop] = v]: the slice is replaced by [v], whatever the
    length of [v]; an empty or inverted slice inserts [v] at [start]. *)
Definition setslice {A} (l : list A) (start stop : Z) (v : list A) : list A :=
  let a := slice_index (len l) start in
  let b := Z.max a (slice_index (len l) stop) in
  take (Z.to_nat a) l ++ v ++ drop (Z.to_nat b) l.

(** The position an index [i] denotes in a sequence of length [n]. *)
Definition item_index (n i : Z) : option nat :=
  let j := if i <? 0 then i + n else i in
  if (0 <=? j) && (j <? n) then Some (Z.to_nat j) else None.

(** [l[i]] *)
Definition getitem (l : bytes) (i : Z) : exn + Z :=
  match item_index (len l) i with
  | Some j => match l !! j with Some x => inr x | None => inl IndexError end
  | None => inl IndexError
  end.

(** [l[i] = v] on a bytearray; the value is checked before the index. *)
Definition setitem (l : bytes) (i v : Z) : exn + bytes :=
  if (0 <=? v) && (v <? 256) then
    match item_index (len l) i with
    | Some j => inr (<[j:=v]> l)
    | None => inl IndexError
    end
  else inl (ValueError ByteRange).

(** [range(n)] *)
Definition range (n : Z) : list Z := Z.of_nat <$> seq 0 (Z.to_nat n).

(** ** Exceptions *)

Abbreviation result := (sum exn).

#[global] Instance result_ret : MRet result := fun A x => inr x.
#[global] Instance result_bind : MBind result := fun A B k m =>
  match m with
  | inl e => inl e
  | inr a => k a
  end.

(** [for x in xs: acc = body(x, acc)], stopping at the first exception. *)
Fixpoint rfor {A S} (xs : list A) (body : A -> S -> result S) (acc : S) : result S :=
  match xs with
  | [] => inr acc
  | x :: xs' => body x acc ≫= rfor xs' body
  end.

(** ** Disk geometry *)

Definition TRACKS_PER_DISK : Z := 35.
Definition SECTORS_PER_TRACK : Z := 16.
Definition BYTES_PER_SECTOR : Z := 256.
Definition DISK_SIZE : Z := TRACKS_PER_DISK * SECTORS_PER_TRACK * BYTES_PER_SECTOR.

Definition DOS33_VTOC_TRACK : Z := 17.
Definition DOS33_VTOC_SECTOR : Z := 0.
Definition DOS33_CATALOG_TRACK : Z := 17.
Definition DOS33_CATALOG_SECTOR : Z := 1.

Record DiskImage := mkDiskImage {
  format : string;
  name : string;
  data : bytes
}.

(** [DiskImage.__init__] *)
Definition DiskImage_init (format name : string) : DiskImage :=
  {| format := format;
     name := String.substring 0 30 name;
     data := bytearray DISK_SIZE |}.

(** The local [offset] of [get_sector] and [set_sector]. *)
Definition sector_offset (track sector : Z) : Z :=
  (track * SECTORS_PER_TRACK + sector) * BYTES_PER_SECTOR.

(** [DiskImage.get_sector] *)
Definition get_sector (self : DiskImage) (track sector : Z) : result bytes :=
  if (track >=? TRACKS_PER_DISK) || (sector >=? SECTORS_PER_TRACK)
  then inl (ValueError (InvalidTrackSector track sector))
  else
    let offset := sector_offset track sector in
    inr (getslice (data self) offset (offset + BYTES_PER_SECTOR)).

(** [DiskImage.set_sector]; the mutated object is the result. *)
Definition set_sector (self : DiskImage) (track sector : Z) (payload : bytes)
  : result DiskImage :=
  if (track >=? TRACKS_PER_DISK) || (sector >=? SECTORS_PER_TRACK)
  then inl (ValueError (InvalidTrackSector track sector))
  else if len payload >? BYTES_PER_SECTOR
  then inl (ValueError (DataTooLarge (len payload)))
  else
    let offset := sector_offset track sector in
    inr {| format := format self;
           name := name self;
           data := setslice (data self) offset (offset + len payload) payload |}.

(** ** Standard output and the file system *)

(** One constructor per [print] statement of the two tools, with the
    values the statement interpolates; the comment gives the text of the
    statement. *)
Inductive line :=
  (* make_disk_image.py *)
  | FormattingDisk (name : string)       (* Formatting disk as DOS 3.3: {self.name} *)
  | FilesystemCreated                    (* DOS 3.3 filesystem created *)
  | AddingFile (filename : string) (size file_type load_address : Z)
      (* Adding file: {filename} ({len(data)} bytes, type=.., load=..) *)
  | DiskImageSaved (output_path : string) (size : Z)
      (* Disk image saved: {output_path} ({len(self.data)} bytes) *)
  (* verify_disk.py *)
  | Verifying (disk_path : string)       (* Verifying disk image: {disk_path.name} *)
  | Rule                                 (* 60 equal signs *)
  | FileNotFound (disk_path : string)    (* File not found: {disk_path} *)
  | FileSize (size : Z)                  (* File size: {size} bytes *)
  | WarnExpectedSize (expected : Z)      (* Warning: Expected {DISK_SIZE} bytes for 5.25 disk *)
  | SizeDifference (difference : Z)      (* Difference: {size - DISK_SIZE} bytes *)
  | CorrectSize                          (* Correct size for 5.25 disk image *)
  | BootSectorHeading                    (* Boot sector (track 0, sector 0): *)
  | NonZeroBytes (non_zero : Z)          (* Non-zero bytes: {non_zero}/256 *)
  | BootSectorHasData                    (* Boot sector contains data *)
  | First16Bytes (first : bytes)         (* First 16 bytes: .. *)
  | BootSectorEmpty                      (* Boot sector is empty *)
  | VtocHeading                          (* VTOC (Volume Table of Contents): *)
  | DosVersion (dos_version : Z)         (* DOS version: {dos_version} *)
  | VolumeNumber (volume_num : Z)        (* Volume number: {volume_num} *)
  | MaxPairs (max_pairs : Z)             (* Max T/S pairs: {max_pairs} *)
  | Tracks (num_tracks : Z)              (* Tracks: {num_tracks} *)
  | SectorsPerTrack (sectors_per_track : Z)  (* Sectors/track: {sectors_per_track} *)
  | ValidVtoc                            (* Valid DOS 3.3 VTOC *)
  | UnexpectedGeometry                   (* Unexpected geometry *)
  | CatalogHeading                       (* Catalog sector: *)
  | NextCatalog (next_cat_track next_cat_sector : Z)
      (* Next catalog: track {next_cat_track}, sector {next_cat_sector} *)
  | FileEntry (file_entries : Z) (filename : list Z) (file_type : Z)
      (* File {file_entries}: {filename.strip()} (type {file_type}) *)
  | FoundFiles (file_entries : Z)        (* Found {file_entries} file(s) *)
  | NoFiles                              (* No files in catalog (empty disk or catalog not populated) *)
  | BlankRule                            (* an empty line and 60 equal signs *)
  | ValidImage                           (* Valid DOS 3.3 disk image *)
  | ImageMayHaveIssues.                  (* Disk image may have issues *)

Record World := mkWorld {
  files : gmap string bytes;
  stdout : list line
}.

(** Computations that may raise, print, and read or write files. *)
Definition M (A : Type) : Type := World -> result A * World.

#[global] Instance M_ret : MRet M := fun A x w => (inr x, w).
#[global] Instance M_bind : MBind M := fun A B k m w =>
  match m w with
  | (inl e, w') => (inl e, w')
  | (inr a, w') => k a w'
  end.

Definition lift {A} (r : result A) : M A := fun w => (r, w).

Definition print (l : line) : M unit :=
  fun w => (inr tt, {| files := files w; stdout := stdout w ++ [l] |}).

(** [for x in xs: acc = body(x, acc)] with effects. *)
Fixpoint mfor {A S} (xs : list A) (body : A -> S -> M S) (acc : S) : M S :=
  match xs with
  | [] => mret acc
  | x :: xs' => body x acc ≫= mfor xs' body
  end.

(** [Path.exists], [Path.stat().st_size], reading and writing a file. *)
Definition path_exists (path : string) : M bool :=
  fun w => (inr (bool_decide (is_Some (files w !! path))), w).

Definition stat_size (path : string) : M Z :=
  fun w => match files w !! path with
           | Some content => (inr (len content), w)
           | None => (inl (FileNotFoundError path), w)
           end.

Definition read_file (path : string) : M bytes :=
  fun w => match files w !! path with
           | Some content => (inr content, w)
           | None => (inl (FileNotFoundError path), w)
           end.

Definition write_file (path : string) (content : bytes) : M unit :=
  fun w => (inr tt, {| files := <[path:=content]> (files w); stdout := stdout w |}).

(** ** [make_disk_image.py]: formatting, adding files, saving *)

(** Where [format_dos33] keeps the bit of a sector in the VTOC: byte
    [0x38 + track * 4 + sector // 8], bit [7 - sector % 8]. *)
Definition bitmap_byte_offset (track sector : Z) : Z := 0x38 + track * 4 + sector `div` 8.
Definition bitmap_bit (sector : Z) : Z := 7 - sector `mod` 8.

(** The VTOC sector [format_dos33] builds before it stores it. *)
Definition format_vtoc : result bytes :=
  let vtoc := bytearray BYTES_PER_SECTOR in
  vtoc ← setitem vtoc 0x00 0;
  vtoc ← setitem vtoc 0x01 DOS33_CATALOG_TRACK;
  vtoc ← setitem vtoc 0x02 DOS33_CATALOG_SECTOR;
  vtoc ← setitem vtoc 0x03 3;
  vtoc ← setitem vtoc 0x06 254;
  vtoc ← setitem vtoc 0x27 122;
  vtoc ← setitem vtoc 0x30 1;
  vtoc ← setitem vtoc 0x34 TRACKS_PER_DISK;
  vtoc ← setitem vtoc 0x35 SECTORS_PER_TRACK;
  vtoc ← setitem vtoc 0x36 0;
  vtoc ← setitem vtoc 0x37 1;
  rfor (range 16) (fun sector vtoc =>
    let byte_offset := bitmap_byte_offset DOS33_VTOC_TRACK sector in
    let bit := bitmap_bit sector in
    old ← getitem vtoc byte_offset;
    setitem vtoc byte_offset (Z.land old (Z.lnot (Z.shiftl 1 bit)))) vtoc.

(** The first catalog sector [format_dos33] builds. *)
Definition format_catalog : result bytes :=
  let catalog := bytearray BYTES_PER_SECTOR in
  catalog ← setitem catalog 0x01 DOS33_CATALOG_TRACK;
  setitem catalog 0x02 (DOS33_CATALOG_SECTOR + 1).

(** [DiskImage.format_dos33] *)
Definition format_dos33 (self : DiskImage) : M DiskImage :=
  print (FormattingDisk (name self));;
  vtoc ← lift format_vtoc;
  self ← lift (set_sector self DOS33_VTOC_TRACK DOS33_VTOC_SECTOR vtoc);
  catalog ← lift format_catalog;
  self ← lift (set_sector self DOS33_CATALOG_TRACK DOS33_CATALOG_SECTOR catalog);
  print FilesystemCreated;;
  mret self.

(** [DiskImage.add_file_dos33]: the name is cut to 30 characters and one
    line is printed; nothing else follows in the source. *)
Definition add_file_dos33 (self : DiskImage) (filename : string) (payload : bytes)
    (file_type load_address : Z) : M DiskImage :=
  let filename :=
    if Z.of_nat (String.length filename) >? 30 then String.substring 0 30 filename
    else filename in
  print (AddingFile filename (len payload) file_type load_address);;
  mret self.

(** [DiskImage.save] *)
Definition save (self : DiskImage) (output_path : string) : M unit :=
  write_file output_path (data self);;
  print (DiskImageSaved output_path (len (data self))).

(** ** [verify_disk.py] *)

(** Code points [str.isspace] accepts below 128. *)
Definition is_space (c : Z) : bool :=
  ((9 <=? c) && (c <=? 13)) || ((28 <=? c) && (c <=? 32)).

Fixpoint lstrip (s : list Z) : list Z :=
  match s with
  | c :: s' => if is_space c then lstrip s' else s
  | [] => []
  end.

(** [str.strip] on a list of code points *)
Definition strip (s : list Z) : list Z := reverse (lstrip (reverse (lstrip s))).

(** [''.join(chr(b & 0x7F) for b in filename_bytes if b != 0)] *)
Definition decode_filename (filename_bytes : bytes) : list Z :=
  (fun b => Z.land b 0x7F) <$> filter (fun b => b ≠ 0) filename_bytes.

(** [sum(1 for b in boot_sector if b != 0)] *)
Definition count_non_zero (boot_sector : bytes) : Z :=
  len (filter (fun b => b ≠ 0) boot_sector).

(** The body of the loop over the seven entries of a catalog sector. *)
Definition count_entry (catalog : bytes) (i file_entries : Z) : M Z :=
  let offset := 0x0B + i * 0x23 in
  file_type ← lift (getitem catalog offset);
  if negb (file_type =? 0x00) && negb (file_type =? 0xFF) then
    let file_entries := file_entries + 1 in
    let filename_bytes := getslice catalog (offset + 0x03) (offset + 0x03 + 30) in
    let filename := decode_filename filename_bytes in
    print (FileEntry file_entries (strip filename) file_type);;
    mret file_entries
  else mret file_entries.

(** [verify_disk_image] *)
Definition verify_disk_image (disk_path : string) : M bool :=
  print (Verifying disk_path);;
  print Rule;;
  found ← path_exists disk_path;
  if negb found then
    print (FileNotFound disk_path);;
    mret false
  else
    size ← stat_size disk_path;
    print (FileSize size);;
    (if negb (size =? DISK_SIZE) then
       print (WarnExpectedSize DISK_SIZE);;
       print (SizeDifference (size - DISK_SIZE))
     else print CorrectSize);;
    image ← read_file disk_path;
    print BootSectorHeading;;
    let boot_sector := getslice image 0 BYTES_PER_SECTOR in
    let non_zero := count_non_zero boot_sector in
    print (NonZeroBytes non_zero);;
    (if non_zero >? 0 then
       print BootSectorHasData;;
       print (First16Bytes (getslice boot_sector 0 16))
     else print BootSectorEmpty);;
    print VtocHeading;;
    let vtoc_offset := (17 * 16 + 0) * BYTES_PER_SECTOR in
    let vtoc := getslice image vtoc_offset (vtoc_offset + BYTES_PER_SECTOR) in
    dos_version ← lift (getitem vtoc 0x03);
    volume_num ← lift (getitem vtoc 0x06);
    max_pairs ← lift (getitem vtoc 0x27);
    num_tracks ← lift (getitem vtoc 0x34);
    sectors_per_track ← lift (getitem vtoc 0x35);
    print (DosVersion dos_version);;
    print (VolumeNumber volume_num);;
    print (MaxPairs max_pairs);;
    print (Tracks num_tracks);;
    print (SectorsPerTrack sectors_per_track);;
    (if (num_tracks =? 35) && (sectors_per_track =? 16) then print ValidVtoc
     else print UnexpectedGeometry);;
    print CatalogHeading;;
    let catalog_offset := (17 * 16 + 1) * BYTES_PER_SECTOR in
    let catalog := getslice image catalog_offset (catalog_offset + BYTES_PER_SECTOR) in
    next_cat_track ← lift (getitem catalog 0x01);
    next_cat_sector ← lift (getitem catalog 0x02);
    print (NextCatalog next_cat_track next_cat_sector);;
    file_entries ← mfor (range 7) (count_entry catalog) 0;
    (if file_entries >? 0 then print (FoundFiles file_entries) else print NoFiles);;
    print BlankRule;;
    if (size =? DISK_SIZE) && (dos_version =? 3) then
      print ValidImage;;
      mret true
    else
      print ImageMayHaveIssues;;
      mret false.

(** ** Runs and observations the statements are written with *)

(** A sector address of the disk geometry. *)
Definition valid_address (track sector : Z) : Prop :=
  (0 ≤ track < TRACKS_PER_DISK) ∧ (0 ≤ sector < SECTORS_PER_TRACK).

(** The buffer has the size [__init__] gives it. *)
Definition well_formed (self : DiskImage) : Prop := len (data self) = DISK_SIZE.

(** The byte at offset [i] of a sequence (0 past its end). *)
Definition byte_at (image : bytes) (i : Z) : Z := default 0 (image !! Z.to_nat i).

(** The 560 sector addresses, track by track. *)
Definition all_addresses : list (Z * Z) :=
  track ← range TRACKS_PER_DISK; sector ← range SECTORS_PER_TRACK; [(track, sector)].

(** The bit of (track, sector) in a VTOC sector, read where
    [format_dos33] writes it: set means free, clear means used. *)
Definition sector_free (vtoc : bytes) (track sector : Z) : result bool :=
  b ← getitem vtoc (bitmap_byte_offset track sector);
  mret (Z.testbit b (bitmap_bit sector)).

(** The two sectors [format_dos33] stores, evaluated. *)
Definition formatted_vtoc : bytes :=
  Eval vm_compute in match format_vtoc with inr v => v | inl _ => [] end.
Definition formatted_catalog : bytes :=
  Eval vm_compute in match format_catalog with inr v => v | inl _ => [] end.

(** The image [format_dos33] leaves: the VTOC at track 17 sector 0 and
    the first catalog sector at track 17 sector 1. *)
Definition formatted (self : DiskImage) : DiskImage :=
  {| format := format self; name := name self;
     data := setslice
               (setslice (data self) (sector_offset 17 0)
                  (sector_offset 17 0 + len formatted_vtoc) formatted_vtoc)
               (sector_offset 17 1) (sector_offset 17 1 + len formatted_catalog)
               formatted_catalog |}.

(** The image every freshly formatted disk has. *)
Definition formatted_image : bytes := data (formatted (DiskImage_init "dos33" "DISK")).

(** The name [add_file_dos33] prints. *)
Definition cut_filename (filename : string) : string :=
  if Z.of_nat (String.length filename) >? 30 then String.substring 0 30 filename
  else filename.

(** With the files [fs], [m] ends with [r], prints [out] and leaves the
    files as they are. *)
Definition emits {A} (fs : gmap string bytes) (m : M A) (r : result A)
    (out : list line) : Prop :=
  ∀ so, m {| files := fs; stdout := so |}
        = (r, {| files := fs; stdout := so ++ out |}).

(** The lines of the catalog loop are file entries. *)
Definition is_file_entry (l : line) : Prop :=
  match l with FileEntry _ _ _ => True | _ => False end.

(** [disk = DiskImage(format, name); disk.format_dos33();
    disk.save(path); verify_disk_image(path)] *)
Definition format_save_verify (fmt nm path : string) : M bool :=
  disk ← format_dos33 (DiskImage_init fmt nm);
  save disk path;;
  verify_disk_image path.

(** The same with one file added between formatting and saving, as
    [create_data_disk] does per file; the result is the disk object. *)
Definition format_add_save (fmt nm path filename : string) (payload : bytes)
    (file_type load_address : Z) : M DiskImage :=
  disk ← format_dos33 (DiskImage_init fmt nm);
  disk ← add_file_dos33 disk filename payload file_type load_address;
  save disk path;;
  mret disk.

(** A length rounded up to whole sectors. *)
Definition round_up_to_sector (n : Z) : Z :=
  (n + BYTES_PER_SECTOR - 1) `div` BYTES_PER_SECTOR * BYTES_PER_SECTOR.

Definition empty_world : World := {| files := ∅; stdout := [] |}.

Definition world_with (path : string) (image : bytes) : World :=
  {| files := {[path := image]}; stdout := [] |}.

(** *** The report of the verifier, as a function of the image

    What [verify_disk_image] prints and returns on an image that holds
    every byte it indexes; [verify_disk_image_emits] proves it. *)

Definition vtoc_of (image : bytes) : bytes :=
  let vtoc_offset := (17 * 16 + 0) * BYTES_PER_SECTOR in
  getslice image vtoc_offset (vtoc_offset + BYTES_PER_SECTOR).

Definition catalog_of (image : bytes) : bytes :=
  let catalog_offset := (17 * 16 + 1) * BYTES_PER_SECTOR in
  getslice image catalog_offset (catalog_offset + BYTES_PER_SECTOR).

Definition size_report (size : Z) : list line :=
  if negb (size =? DISK_SIZE)
  then [WarnExpectedSize DISK_SIZE; SizeDifference (size - DISK_SIZE)]
  else [CorrectSize].

Definition boot_report (boot_sector : bytes) : list line :=
  if count_non_zero boot_sector >? 0
  then [BootSectorHasData; First16Bytes (getslice boot_sector 0 16)]
  else [BootSectorEmpty].

Definition geometry_report (num_tracks sectors_per_track : Z) : list line :=
  if (num_tracks =? 35) && (sectors_per_track =? 16) then [ValidVtoc]
  else [UnexpectedGeometry].

Fixpoint entries_report (catalog : bytes) (slots : list Z) (file_entries : Z)
  : Z * list line :=
  match slots with
  | [] => (file_entries, [])
  | i :: slots' =>
      let offset := 0x0B + i * 0x23 in
      let file_type := byte_at catalog offset in
      if negb (file_type =? 0x00) && negb (file_type =? 0xFF) then
        let rest := entries_report catalog slots' (file_entries + 1) in
        (rest.1,
         FileEntry (file_entries + 1)
           (strip (decode_filename (getslice catalog (offset + 0x03) (offset + 0x03 + 30))))
           file_type :: rest.2)
      else entries_report catalog slots' file_entries
  end.

Definition files_report (file_entries : Z) : list line :=
  if file_entries >? 0 then [FoundFiles file_entries] else [NoFiles].

Definition verdict (image : bytes) : bool :=
  (len image =? DISK_SIZE) && (byte_at (vtoc_of image) 0x03 =? 3).

Definition verdict_report (ok : bool) : list line :=
  if ok then [ValidImage] else [ImageMayHaveIssues].

Definition report (disk_path : string) (image : bytes) : list line :=
  let vtoc := vtoc_of image in
  let catalog := catalog_of image in
  let entries := entries_report catalog (range 7) 0 in
  let boot_sector := getslice image 0 BYTES_PER_SECTOR in
  [Verifying disk_path; Rule; FileSize (len image)] ++
  size_report (len image) ++
  [BootSectorHeading; NonZeroBytes (count_non_zero boot_sector)] ++
  boot_report boot_sector ++
  [VtocHeading; DosVersion (byte_at vtoc 0x03); VolumeNumber (byte_at vtoc 0x06);
   MaxPairs (byte_at vtoc 0x27); Tracks (byte_at vtoc 0x34);
   SectorsPerTrack (byte_at vtoc 0x35)] ++
  geometry_report (byte_at vtoc 0x34) (byte_at vtoc 0x35) ++
  [CatalogHeading; NextCatalog (byte_at catalog 0x01) (byte_at catalog 0x02)] ++
  entries.2 ++
  files_report entries.1 ++
  [BlankRule] ++
  verdict_report (verdict image).

(** What the round trip of the specification asks of a reader
    [readFile] for the payload [b]: after formatting and adding [b] as
    the binary file X, reading X back gives as many sectors as [b] fills. *)
Definition reads_back (readFile : bytes → string → result bytes) (b : bytes) : Prop :=
  ∃ disk w r,
    format_add_save "dos33" "DISK" "disk.dsk" "X" b 0x04 0x2000 empty_world = (inr disk, w) ∧
    readFile (data disk) "X" = inr r ∧
    round_up_to_sector (len r) = round_up_to_sector (len b).

(** An image of the right size whose VTOC says DOS version 3 and
    nothing else, and an image of one byte. *)
Definition version_only_image : bytes :=
  bytearray 69635 ++ [3] ++ bytearray (DISK_SIZE - 69636).
Definition one_byte_image : bytes := [0].

(** ** Observations on the sectors and on the output of the verifier *)

(** The sectors of an image, read in the order of [all_addresses]. *)
Definition read_all_sectors (self : DiskImage) : result (list bytes) :=
  mapM (λ ts, get_sector self ts.1 ts.2) all_addresses.

(** Neither of the two verdict lines of the verifier is in [out]. *)
Definition no_verdict (out : list line) : Prop :=
  (ValidImage ∉ out) ∧ (ImageMayHaveIssues ∉ out).

(** With the files [fs], [m] raises [e] before any verdict is printed,
    and leaves the files alone. *)
Definition stops {A} (fs : gmap string bytes) (m : M A) (e : exn) : Prop :=
  ∃ out, emits fs m (inl e) out ∧ no_verdict out.



(** Whether a line is one of the lines printed for a file. *)
#[global] Instance is_file_entry_dec (l : line) : Decision (is_file_entry l) :=
  match l with
  | FileEntry _ _ _ => left I
  | _ => right (fun H => H)
  end.

(** [disk.format_dos33(); disk.save(path); verify_disk_image(path)] on a
    disk object in any state. *)
Definition format_then_verify (self : DiskImage) (path : string) : M bool :=
  disk ← format_dos33 self;
  save disk path;;
  verify_disk_image path.

(** ** The callers: [create_boot_disk], [create_data_disk] and [main] of [verify_disk.py]

    The callers print lines of their own between those of the methods
    they call, and [create_data_disk] lists a directory. They are
    modelled as computations on a [Session]: the same files, and a
    console of [tool_line]s in which the lines of the methods are
    embedded.
    - A [Path] is its string [str(path)] on a POSIX system. [Path s] is
      [str(Path(s))] and [joinpath dir name] is [str(Path(dir) / name)],
      with the rules of [pathlib]: empty parts and parts that are a
      single dot are dropped, a name that starts with a slash replaces
      the directory, and the empty path is a single dot.
    - A directory is not an entry of the file system: it holds the
      files whose path starts with its name and a slash, and listing a
      directory that holds none gives no path.
    - Every entry of the file system is a regular file that can be
      read, and the writes of the model always succeed. A statement
      about a run that reads a path or writes one takes what the path
      holds, or that it can be written, as a hypothesis.
    - [str.upper] is modelled on ASCII; a statement that depends on it
      takes ASCII names as a hypothesis.
    - [sys.exit(status)] ends [main]: the status is its result. *)

(** Their standard output: the lines of the methods they call, and
    their own. *)
Inductive tool_line :=
  | MethodLine (l : line)
  | CreatingBootDisk (name : string)      (* Creating boot disk: {name} *)
  | CreatingDataDisk (name : string)      (* Creating data disk: {name} *)
  | NoBinFiles (input_dir : string)       (* No .bin files found in {input_dir} *)
  | FoundBinaries (n : Z)                 (* Found {len(bin_files)} binary files: *)
  | BinaryFile (name : string) (size : Z) (* {bin_file.name}: {size} bytes *)
  | TotalSize (total_size : Z)            (* Total: {total_size} bytes *)
  | MayNotFit (total_size available_space : Z)
      (* Warning: Files ({total_size} bytes) may not fit on disk ({available_space} bytes available) *)
  | Usage.                                (* Usage: python3 verify_disk.py <disk_image.dsk> *)

Record Session := mkSession {
  disk_files : gmap string bytes;
  console : list tool_line
}.

Definition T (A : Type) : Type := Session -> result A * Session.

#[global] Instance T_ret : MRet T := fun A x s => (inr x, s).






















(** The program [create_boot_disk] stores in the boot sector. *)
Definition boot_program : bytes :=
  [0x01; 0x08; 0xE0; 0x00;
   0xA9; 0x8D; 0x20; 0xED; 0xFD; 0xA0; 0x00;
   0xB9; 0x20; 0x08; 0xF0; 0x09; 0x20; 0xED; 0xFD; 0xC8; 0x4C; 0x0A; 0x08;
   0x60] ++
  (* HELLO FROM XASM++ and two carriage returns *)
  [72; 69; 76; 76; 79; 32; 70; 82; 79; 77; 32; 88; 65; 83; 77; 43; 43; 13; 13] ++
  [0x00].











(** The boot sector and the image of the boot disk. *)
Definition boot_sector_bytes : bytes :=
  boot_program ++ replicate (Z.to_nat (BYTES_PER_SECTOR - len boot_program)) 0.

Definition boot_image : bytes :=
  setslice formatted_image (sector_offset 0 0)
    (sector_offset 0 0 + len boot_sector_bytes) boot_sector_bytes.

Definition boot_disk (name : string) : DiskImage :=
  {| format := "dos33"; name := String.substring 0 30 name; data := boot_image |}.


(** * Properties *)

(** ** Slices and items *)

Section slices.
Context {A : Type}.
Implicit Types (l v : list A) (a b i : Z).

Lemma len_nonneg l : 0 ≤ len l.
Proof. unfold len. lia. Qed.

Lemma slice_index_in_range n i : 0 ≤ i ≤ n → slice_index n i = i.
Proof. intros H. unfold slice_index. destruct (Z.ltb_spec i 0); lia. Qed.

Lemma slice_index_negative n i : i < 0 → 0 ≤ i + n → slice_index n i = i + n.
Proof. intros H1 H2. unfold slice_index. destruct (Z.ltb_spec i 0); lia. Qed.

Lemma setslice_in_range l a b v :
  0 ≤ a → a ≤ b → b ≤ len l →
  setslice l a b v = take (Z.to_nat a) l ++ v ++ drop (Z.to_nat b) l.
Proof.
  intros Ha Hab Hb. unfold setslice.
  rewrite !slice_index_in_range by lia. do 3 f_equal. lia.
Qed.

Lemma len_setslice l a v :
  0 ≤ a → a + len v ≤ len l → len (setslice l a (a + len v) v) = len l.
Proof.
  intros Ha Hb. pose proof (len_nonneg v).
  rewrite setslice_in_range by lia. unfold len in *.
  rewrite !length_app, length_take, length_drop. lia.
Qed.

(** Reading position [i] after a slice assignment that fits. *)
Lemma lookup_setslice l a v (i : nat) :
  0 ≤ a → a + len v ≤ len l →
  setslice l a (a + len v) v !! i =
    if decide (a ≤ Z.of_nat i < a + len v) then v !! (i - Z.to_nat a)%nat else l !! i.
Proof.
  intros Ha Hb. pose proof (len_nonneg v).
  rewrite setslice_in_range by lia. unfold len in *.
  assert (length (take (Z.to_nat a) l) = Z.to_nat a) as Htake
    by (rewrite length_take; lia).
  case_decide as Hi.
  - rewrite lookup_app_r by lia. rewrite Htake.
    apply lookup_app_l. lia.
  - destruct (decide (Z.of_nat i < a)).
    + rewrite lookup_app_l by lia. apply lookup_take_lt. lia.
    + rewrite lookup_app_r by lia. rewrite lookup_app_r by lia.
      rewrite lookup_drop, Htake. f_equal. lia.
Qed.

(** Reading position [i] of a slice with non-negative bounds. *)
Lemma lookup_getslice l a b (i : nat) :
  0 ≤ a → 0 ≤ b →
  getslice l a b !! i =
    if decide (a + Z.of_nat i < b) then l !! (Z.to_nat a + i)%nat else None.
Proof.
  intros Ha Hb. unfold getslice, slice_index.
  destruct (Z.ltb_spec a 0); [lia|]. destruct (Z.ltb_spec b 0); [lia|].
  pose proof (len_nonneg l). unfold len in *.
  case_decide as Hi.
  - destruct (decide (a + Z.of_nat i < Z.of_nat (length l))).
    + rewrite lookup_take_lt by lia. rewrite lookup_drop. f_equal. lia.
    + rewrite lookup_take_ge by lia. symmetry. apply lookup_ge_None_2. lia.
  - apply lookup_take_ge. lia.
Qed.
End slices.

Lemma getitem_lookup (l : bytes) (i : Z) (x : Z) :
  0 ≤ i → l !! Z.to_nat i = Some x → getitem l i = inr x.
Proof.
  intros Hi Hx. apply lookup_lt_Some in Hx as Hlt.
  unfold getitem, item_index, len.
  destruct (Z.ltb_spec i 0); [lia|].
  destruct (Z.leb_spec 0 i); [|lia].
  destruct (Z.ltb_spec i (Z.of_nat (length l))); [|lia].
  simpl. by rewrite Hx.
Qed.

Lemma lookup_byte_at (l : bytes) (i : Z) :
  0 ≤ i < len l → l !! Z.to_nat i = Some (byte_at l i).
Proof.
  intros Hi. unfold byte_at, len in *.
  destruct (lookup_lt_is_Some_2 l (Z.to_nat i)) as [x Hx]; [lia|].
  by rewrite Hx.
Qed.

(** ** Geometry *)

Lemma elem_of_range (n i : Z) : i ∈ range n ↔ 0 ≤ i < n.
Proof.
  unfold range. rewrite list_elem_of_fmap. split.
  - intros (k & -> & Hk). apply elem_of_seq in Hk. lia.
  - intros Hi. exists (Z.to_nat i). split; [lia|]. apply elem_of_seq. lia.
Qed.

Lemma elem_of_all_addresses (track sector : Z) :
  (track, sector) ∈ all_addresses ↔ valid_address track sector.
Proof.
  unfold all_addresses, valid_address.
  rewrite list_elem_of_bind. split.
  - intros (t & Hin & Ht). apply list_elem_of_bind in Hin as (s & Hin & Hs).
    apply list_elem_of_singleton in Hin. injection Hin as -> ->.
    apply elem_of_range in Ht, Hs. done.
  - intros [Ht Hs]. exists track. split; [|by apply elem_of_range].
    apply list_elem_of_bind. exists sector. split; [|by apply elem_of_range].
    by apply list_elem_of_singleton.
Qed.

Lemma sector_offset_bounds (track sector : Z) :
  valid_address track sector →
  0 ≤ sector_offset track sector ∧
  sector_offset track sector + BYTES_PER_SECTOR ≤ DISK_SIZE.
Proof.
  unfold valid_address, sector_offset, DISK_SIZE,
    TRACKS_PER_DISK, SECTORS_PER_TRACK, BYTES_PER_SECTOR. lia.
Qed.

Lemma sector_offset_inj (t1 s1 t2 s2 : Z) :
  valid_address t1 s1 → valid_address t2 s2 →
  sector_offset t1 s1 = sector_offset t2 s2 → t1 = t2 ∧ s1 = s2.
Proof.
  unfold valid_address, sector_offset,
    TRACKS_PER_DISK, SECTORS_PER_TRACK, BYTES_PER_SECTOR. lia.
Qed.

(** The sector that holds byte [o]. *)
Lemma sector_of_offset (o : Z) :
  0 ≤ o < DISK_SIZE →
  let track := o `div` (SECTORS_PER_TRACK * BYTES_PER_SECTOR) in
  let sector := (o `mod` (SECTORS_PER_TRACK * BYTES_PER_SECTOR)) `div` BYTES_PER_SECTOR in
  valid_address track sector ∧
  sector_offset track sector ≤ o < sector_offset track sector + BYTES_PER_SECTOR.
Proof.
  unfold valid_address, sector_offset, DISK_SIZE,
    TRACKS_PER_DISK, SECTORS_PER_TRACK, BYTES_PER_SECTOR.
  intros Ho. cbv zeta. change (16 * 256) with 4096.
  pose proof (Z.div_mod o 4096 ltac:(lia)).
  pose proof (Z.mod_pos_bound o 4096 ltac:(lia)).
  pose proof (Z.div_mod (o `mod` 4096) 256 ltac:(lia)).
  pose proof (Z.mod_pos_bound (o `mod` 4096) 256 ltac:(lia)).
  lia.
Qed.

(** C4. The map (track, sector) |-> (track * 16 + sector) * 256 is
    injective on the valid addresses; every sector region lies inside
    the image; every byte offset of the image lies in the region of
    exactly one valid address; and the offsets of the 560 addresses,
    taken track by track, are 0, 256, 512, ... without gap or overlap. *)
Theorem sector_offset_partition :
  (∀ t1 s1 t2 s2, valid_address t1 s1 → valid_address t2 s2 →
     sector_offset t1 s1 = sector_offset t2 s2 → t1 = t2 ∧ s1 = s2) ∧
  (∀ track sector, valid_address track sector →
     0 ≤ sector_offset track sector ∧
     sector_offset track sector + BYTES_PER_SECTOR ≤ DISK_SIZE) ∧
  (∀ o, 0 ≤ o < DISK_SIZE →
     ∃ track sector, valid_address track sector ∧
       sector_offset track sector ≤ o < sector_offset track sector + BYTES_PER_SECTOR ∧
       ∀ track' sector', valid_address track' sector' →
         sector_offset track' sector' ≤ o < sector_offset track' sector' + BYTES_PER_SECTOR →
         track' = track ∧ sector' = sector) ∧
  length all_addresses = 560%nat ∧
  (λ ts, sector_offset ts.1 ts.2) <$> all_addresses
    = (λ k, k * BYTES_PER_SECTOR) <$> range 560 ∧
  560 * BYTES_PER_SECTOR = DISK_SIZE.
Proof.
  split; [exact sector_offset_inj|].
  split; [exact sector_offset_bounds|].
  split; [|split; [|split]]; [|reflexivity..].
  intros o Ho. destruct (sector_of_offset o Ho) as [Hv Hin].
  eexists _, _. split; [exact Hv|]. split; [exact Hin|].
  intros t' s' Hv' Hin'. revert Hv Hin Hv' Hin'.
  generalize (o `div` (SECTORS_PER_TRACK * BYTES_PER_SECTOR)).
  generalize ((o `mod` (SECTORS_PER_TRACK * BYTES_PER_SECTOR)) `div` BYTES_PER_SECTOR).
  unfold valid_address, sector_offset,
    TRACKS_PER_DISK, SECTORS_PER_TRACK, BYTES_PER_SECTOR. lia.
Qed.

Lemma sector_offset_partition_witness :
  valid_address 34 15 ∧
  (0 ≤ sector_offset 34 15 ∧ sector_offset 34 15 + BYTES_PER_SECTOR ≤ DISK_SIZE) ∧
  0 ≤ 69635 < DISK_SIZE ∧
  ∃ track sector, valid_address track sector ∧
    sector_offset track sector ≤ 69635 < sector_offset track sector + BYTES_PER_SECTOR.
Proof.
  destruct sector_offset_partition as (_ & Hin & Hcover & _).
  assert (valid_address 34 15) as Hv
    by (unfold valid_address; vm_compute; intuition discriminate).
  assert (0 ≤ 69635 < DISK_SIZE) as Ho by (vm_compute; intuition discriminate).
  split; [exact Hv|]. split; [exact (Hin 34 15 Hv)|]. split; [exact Ho|].
  destruct (Hcover 69635 Ho) as (track & sector & Hvalid & Hregion & _).
  exists track, sector. split; [exact Hvalid|exact Hregion].
Defined.

(** ** Sector reads and writes *)

Lemma get_sector_out_of_range (self : DiskImage) (track sector : Z) :
  TRACKS_PER_DISK ≤ track ∨ SECTORS_PER_TRACK ≤ sector →
  get_sector self track sector = inl (OutOfRange track sector).
Proof.
  intros H. unfold get_sector.
  destruct (Z.geb_spec track TRACKS_PER_DISK), (Z.geb_spec sector SECTORS_PER_TRACK);
    simpl; first [done | lia].
Qed.

Lemma set_sector_out_of_range (self : DiskImage) (track sector : Z) (p : bytes) :
  TRACKS_PER_DISK ≤ track ∨ SECTORS_PER_TRACK ≤ sector →
  set_sector self track sector p = inl (OutOfRange track sector).
Proof.
  intros H. unfold set_sector.
  destruct (Z.geb_spec track TRACKS_PER_DISK), (Z.geb_spec sector SECTORS_PER_TRACK);
    simpl; first [done | lia].
Qed.

Lemma set_sector_overflow (self : DiskImage) (track sector : Z) (p : bytes) :
  track < TRACKS_PER_DISK → sector < SECTORS_PER_TRACK →
  BYTES_PER_SECTOR < len p →
  set_sector self track sector p = inl (SectorOverflow (len p)).
Proof.
  intros Ht Hs Hp. unfold set_sector.
  destruct (Z.geb_spec track TRACKS_PER_DISK); [lia|].
  destruct (Z.geb_spec sector SECTORS_PER_TRACK); [lia|]. simpl.
  destruct (Z.gtb_spec (len p) BYTES_PER_SECTOR); [done|lia].
Qed.

Lemma get_sector_below (self : DiskImage) (track sector : Z) :
  track < TRACKS_PER_DISK → sector < SECTORS_PER_TRACK →
  get_sector self track sector =
    inr (getslice (data self) (sector_offset track sector)
           (sector_offset track sector + BYTES_PER_SECTOR)).
Proof.
  intros Ht Hs. unfold get_sector.
  destruct (Z.geb_spec track TRACKS_PER_DISK); [lia|].
  destruct (Z.geb_spec sector SECTORS_PER_TRACK); [lia|]. done.
Qed.

Lemma set_sector_below (self : DiskImage) (track sector : Z) (p : bytes) :
  track < TRACKS_PER_DISK → sector < SECTORS_PER_TRACK →
  len p ≤ BYTES_PER_SECTOR →
  set_sector self track sector p =
    inr {| format := format self; name := name self;
           data := setslice (data self) (sector_offset track sector)
                     (sector_offset track sector + len p) p |}.
Proof.
  intros Ht Hs Hp. unfold set_sector.
  destruct (Z.geb_spec track TRACKS_PER_DISK); [lia|].
  destruct (Z.geb_spec sector SECTORS_PER_TRACK); [lia|]. simpl.
  destruct (Z.gtb_spec (len p) BYTES_PER_SECTOR); [lia|done].
Qed.

(** A write to a valid address keeps the size of the buffer, stores the
    payload at the sector's offset and changes no other byte. *)
Lemma set_sector_frame (self self' : DiskImage) (track sector : Z) (p : bytes) :
  well_formed self → valid_address track sector →
  set_sector self track sector p = inr self' →
  well_formed self' ∧
  format self' = format self ∧ name self' = name self ∧
  ∀ i : nat,
    data self' !! i =
      if decide (sector_offset track sector ≤ Z.of_nat i
                 < sector_offset track sector + len p)
      then p !! (i - Z.to_nat (sector_offset track sector))%nat
      else data self !! i.
Proof.
  intros Hwf Hv Hset. pose proof (sector_offset_bounds _ _ Hv) as [Hlo Hhi].
  destruct Hv as [Ht Hs]. unfold well_formed in *.
  destruct (decide (len p ≤ BYTES_PER_SECTOR)) as [Hp|Hp].
  - rewrite set_sector_below in Hset by lia. injection Hset as <-. simpl.
    split; [|split; [done|split; [done|]]].
    + rewrite len_setslice; lia.
    + intros i. apply lookup_setslice; lia.
  - rewrite set_sector_overflow in Hset by lia. discriminate.
Qed.

(** Reading back the sector just written. *)
Lemma get_set_sector_same (self self' : DiskImage) (track sector : Z) (p : bytes) :
  well_formed self → valid_address track sector →
  len p = BYTES_PER_SECTOR →
  set_sector self track sector p = inr self' →
  get_sector self' track sector = inr p.
Proof.
  intros Hwf Hv Hp Hset.
  destruct (set_sector_frame _ _ _ _ _ Hwf Hv Hset) as (Hwf' & _ & _ & Hlook).
  pose proof (sector_offset_bounds _ _ Hv) as [Hlo Hhi].
  destruct Hv as [Ht Hs]. unfold well_formed in *.
  assert (BYTES_PER_SECTOR = 256) as HB by done.
  rewrite get_sector_below by lia. f_equal. apply list_eq. intros i.
  rewrite lookup_getslice by lia. case_decide as Hi.
  - rewrite Hlook, decide_True by lia. f_equal. lia.
  - symmetry. apply lookup_ge_None_2. unfold len in Hp. lia.
Qed.

(** Reading any other sector after a write. *)
Lemma get_set_sector_other (self self' : DiskImage) (t s t' s' : Z) (p : bytes) :
  well_formed self → valid_address t s → valid_address t' s' →
  (t', s') ≠ (t, s) →
  set_sector self t s p = inr self' →
  get_sector self' t' s' = get_sector self t' s'.
Proof.
  intros Hwf Hv Hv' Hne Hset.
  destruct (set_sector_frame _ _ _ _ _ Hwf Hv Hset) as (Hwf' & _ & _ & Hlook).
  assert (len p ≤ BYTES_PER_SECTOR) as Hp.
  { destruct (decide (len p ≤ BYTES_PER_SECTOR)); [done|].
    destruct Hv. rewrite set_sector_overflow in Hset by lia. discriminate. }
  pose proof (sector_offset_bounds _ _ Hv) as [Hlo Hhi].
  pose proof (sector_offset_bounds _ _ Hv') as [Hlo' Hhi'].
  assert (sector_offset t' s' + BYTES_PER_SECTOR ≤ sector_offset t s ∨
          sector_offset t s + BYTES_PER_SECTOR ≤ sector_offset t' s') as Hdisj.
  { revert Hne. destruct Hv, Hv'.
    unfold sector_offset, TRACKS_PER_DISK, SECTORS_PER_TRACK, BYTES_PER_SECTOR in *.
    intros Hne.
    destruct (decide (t' = t)) as [->|]; [|lia].
    destruct (decide (s' = s)) as [->|]; [done|lia]. }
  destruct Hv as [Ht Hs], Hv' as [Ht' Hs'].
  assert (BYTES_PER_SECTOR = 256) as HB by done.
  rewrite !get_sector_below by lia. f_equal. apply list_eq. intros i.
  rewrite !lookup_getslice by lia. case_decide as Hi; [|done].
  rewrite Hlook, decide_False; [done|]. lia.
Qed.

(** On the addresses of the geometry the sector operations are as
    specified. An address with track 35 or more, or sector 16 or more, is
    refused by the read and by the write with the invalid-address error;
    a payload of more than 256 bytes at an address below these bounds is
    refused with the too-large error; and a write to a valid address of
    a buffer of 143,360 bytes keeps that length and changes only the
    bytes from the offset of the sector to that offset plus the length
    of the payload. *)
Theorem set_sector_checked_on_valid_addresses (self : DiskImage)
    (track sector : Z) (p : bytes) :
  (TRACKS_PER_DISK ≤ track ∨ SECTORS_PER_TRACK ≤ sector →
     get_sector self track sector = inl (OutOfRange track sector) ∧
     set_sector self track sector p = inl (OutOfRange track sector)) ∧
  (track < TRACKS_PER_DISK → sector < SECTORS_PER_TRACK →
     BYTES_PER_SECTOR < len p →
     set_sector self track sector p = inl (SectorOverflow (len p))) ∧
  (well_formed self → valid_address track sector → len p ≤ BYTES_PER_SECTOR →
     ∃ self',
       set_sector self track sector p = inr self' ∧
       well_formed self' ∧
       ∀ i : nat,
         data self' !! i =
           if decide (sector_offset track sector ≤ Z.of_nat i
                      < sector_offset track sector + len p)
           then p !! (i - Z.to_nat (sector_offset track sector))%nat
           else data self !! i).
Proof.
  split; [|split].
  - intros H. split; [by apply get_sector_out_of_range|by apply set_sector_out_of_range].
  - apply set_sector_overflow.
  - intros Hwf Hv Hp.
    destruct (set_sector self track sector p) as [e|self'] eqn:Hset.
    + destruct Hv. rewrite set_sector_below in Hset by lia. discriminate.
    + exists self'. split; [done|].
      destruct (set_sector_frame _ _ _ _ _ Hwf Hv Hset) as (Hwf' & _ & _ & Hlook).
      done.
Qed.

Lemma set_sector_checked_on_valid_addresses_witness :
  set_sector (DiskImage_init "dos33" "DISK") 35 0 [1; 2; 3] = inl (OutOfRange 35 0) ∧
  set_sector (DiskImage_init "dos33" "DISK") 0 0 (bytearray 257)
    = inl (SectorOverflow (len (bytearray 257))) ∧
  ∃ self',
    set_sector (DiskImage_init "dos33" "DISK") 17 1 [1; 2; 3] = inr self' ∧
    well_formed self'.
Proof.
  split; [|split].
  - apply (set_sector_checked_on_valid_addresses _ 35 0 [1; 2; 3]).
    left. vm_compute. discriminate.
  - apply (set_sector_checked_on_valid_addresses _ 0 0 (bytearray 257));
      vm_compute; reflexivity.
  - destruct (set_sector_checked_on_valid_addresses
                (DiskImage_init "dos33" "DISK") 17 1 [1; 2; 3]) as (_ & _ & H).
    destruct H as (self' & Hset & Hwf & _).
    + vm_compute. reflexivity.
    + unfold valid_address. vm_compute. intuition discriminate.
    + vm_compute. discriminate.
    + exists self'. split; [exact Hset|exact Hwf].
Defined.

(** ** Rules for computations that print and leave the files alone *)

Section emits.
Context (fs : gmap string bytes).

Lemma emits_ret {A} (a : A) : emits fs (mret a) (inr a) [].
Proof. intros so. by rewrite app_nil_r. Qed.

Lemma emits_bind {A B} (m : M A) (k : A → M B) a r o1 o2 :
  emits fs m (inr a) o1 → emits fs (k a) r o2 → emits fs (m ≫= k) r (o1 ++ o2).
Proof.
  intros Hm Hk so. unfold mbind, M_bind. rewrite Hm, Hk. by rewrite app_assoc.
Qed.

Lemma emits_raise_bind {A B} (m : M A) (k : A → M B) e o :
  emits fs m (inl e) o → emits fs (m ≫= k) (inl e) o.
Proof. intros Hm so. unfold mbind, M_bind. by rewrite Hm. Qed.

Lemma emits_print (l : line) : emits fs (print l) (inr tt) [l].
Proof. done. Qed.

Lemma emits_lift {A} (r : result A) : emits fs (lift r) r [].
Proof. intros so. by rewrite app_nil_r. Qed.

Lemma emits_print_bind {B} (l : line) (k : unit → M B) r out :
  emits fs (k tt) r out → emits fs (print l ≫= k) r (l :: out).
Proof. intros Hk. apply (emits_bind _ _ tt _ [l]); [apply emits_print|done]. Qed.

Lemma emits_lift_bind {A B} (r0 : result A) (k : A → M B) a r out :
  r0 = inr a → emits fs (k a) r out → emits fs (lift r0 ≫= k) r out.
Proof. intros -> Hk. apply (emits_bind _ _ a _ []); [apply emits_lift|done]. Qed.

Lemma emits_lift_raise {A B} (r0 : result A) (k : A → M B) e :
  r0 = inl e → emits fs (lift r0 ≫= k) (inl e) [].
Proof. intros ->. apply emits_raise_bind, emits_lift. Qed.

Lemma emits_if {A} (b : bool) (m1 m2 : M A) r o1 o2 :
  emits fs m1 r o1 → emits fs m2 r o2 →
  emits fs (if b then m1 else m2) r (if b then o1 else o2).
Proof. by destruct b. Qed.

Lemma emits_path_exists (path : string) :
  emits fs (path_exists path) (inr (bool_decide (is_Some (fs !! path)))) [].
Proof. intros so. unfold path_exists. simpl. by rewrite app_nil_r. Qed.

Lemma emits_stat_size (path : string) (content : bytes) :
  fs !! path = Some content → emits fs (stat_size path) (inr (len content)) [].
Proof. intros Hf so. unfold stat_size. simpl. by rewrite Hf, app_nil_r. Qed.

Lemma emits_read_file (path : string) (content : bytes) :
  fs !! path = Some content → emits fs (read_file path) (inr content) [].
Proof. intros Hf so. unfold read_file. simpl. by rewrite Hf, app_nil_r. Qed.
End emits.

(** ** Formatting *)

Lemma format_vtoc_eq : format_vtoc = inr formatted_vtoc.
Proof. vm_compute. reflexivity. Qed.

Lemma format_catalog_eq : format_catalog = inr formatted_catalog.
Proof. vm_compute. reflexivity. Qed.

Lemma format_dos33_emits fs (self : DiskImage) :
  emits fs (format_dos33 self) (inr (formatted self))
    [FormattingDisk (name self); FilesystemCreated].
Proof.
  unfold format_dos33. apply emits_print_bind.
  eapply emits_lift_bind; [apply format_vtoc_eq|].
  eapply emits_lift_bind; [by apply set_sector_below|].
  eapply emits_lift_bind; [apply format_catalog_eq|].
  eapply emits_lift_bind; [by apply set_sector_below|].
  apply emits_print_bind, emits_ret.
Qed.

Lemma formatted_sectors (self : DiskImage) :
  well_formed self →
  well_formed (formatted self) ∧
  get_sector (formatted self) 17 0 = inr formatted_vtoc ∧
  get_sector (formatted self) 17 1 = inr formatted_catalog ∧
  ∀ track sector, valid_address track sector →
    (track, sector) ≠ (17, 0) → (track, sector) ≠ (17, 1) →
    get_sector (formatted self) track sector = get_sector self track sector.
Proof.
  intros Hwf.
  assert (valid_address 17 0) as Hv0 by (unfold valid_address; done).
  assert (valid_address 17 1) as Hv1 by (unfold valid_address; done).
  destruct (set_sector self 17 0 formatted_vtoc) as [e|d1] eqn:H1;
    [by rewrite set_sector_below in H1|].
  destruct (set_sector d1 17 1 formatted_catalog) as [e|d2] eqn:H2;
    [by rewrite set_sector_below in H2|].
  assert (d2 = formatted self) as ->.
  { rewrite set_sector_below in H1 by done. injection H1 as <-.
    rewrite set_sector_below in H2 by done. by injection H2 as <-. }
  destruct (set_sector_frame _ _ _ _ _ Hwf Hv0 H1) as (Hwf1 & _).
  destruct (set_sector_frame _ _ _ _ _ Hwf1 Hv1 H2) as (Hwf2 & _).
  split; [done|]. split; [|split].
  - rewrite (get_set_sector_other _ _ _ _ _ _ _ Hwf1 Hv1 Hv0 ltac:(done) H2).
    by apply (get_set_sector_same self _ _ _ formatted_vtoc).
  - by apply (get_set_sector_same d1 _ _ _ formatted_catalog).
  - intros track sector Hv Hn0 Hn1.
    rewrite (get_set_sector_other _ _ _ _ _ _ _ Hwf1 Hv1 Hv Hn1 H2).
    by apply (get_set_sector_other _ _ _ _ _ _ _ Hwf Hv0 Hv Hn0 H1).
Qed.

(** ** The verifier *)

Lemma getitem_byte_at (l : bytes) (i : Z) :
  0 ≤ i < len l → getitem l i = inr (byte_at l i).
Proof. intros Hi. apply getitem_lookup; [lia|]. by apply lookup_byte_at. Qed.

Lemma len_getslice {A} (l : list A) (a b : Z) :
  0 ≤ a → a ≤ b → len (getslice l a b) = Z.max 0 (Z.min b (len l) - a).
Proof.
  intros Ha Hb. unfold getslice, slice_index.
  destruct (Z.ltb_spec a 0); [lia|]. destruct (Z.ltb_spec b 0); [lia|].
  unfold len. rewrite length_take, length_drop. lia.
Qed.

Lemma byte_at_getslice (l : bytes) (a b i : Z) :
  0 ≤ a → 0 ≤ i → a + i < b → byte_at (getslice l a b) i = byte_at l (a + i).
Proof.
  intros Ha Hi Hb. unfold byte_at. rewrite lookup_getslice by lia.
  rewrite decide_True by lia. do 2 f_equal. lia.
Qed.


Lemma byte_at_catalog_of (image : bytes) (i : Z) :
  0 ≤ i < BYTES_PER_SECTOR → byte_at (catalog_of image) i = byte_at image (69888 + i).
Proof.
  intros Hi. unfold catalog_of. cbv zeta.
  rewrite byte_at_getslice by (unfold BYTES_PER_SECTOR in *; lia). done.
Qed.

Lemma len_vtoc_of (image : bytes) : 69686 ≤ len image → 0x36 ≤ len (vtoc_of image).
Proof. intros H. unfold vtoc_of. rewrite len_getslice by done. unfold BYTES_PER_SECTOR. lia. Qed.

Lemma len_catalog_of (image : bytes) : 70110 ≤ len image → 222 ≤ len (catalog_of image).
Proof. intros H. unfold catalog_of. rewrite len_getslice by done. unfold BYTES_PER_SECTOR. lia. Qed.

Lemma count_entry_loop fs (catalog : bytes) (slots : list Z) (file_entries : Z) :
  Forall (λ i, 0 ≤ 0x0B + i * 0x23 < len catalog) slots →
  emits fs (mfor slots (count_entry catalog) file_entries)
    (inr (entries_report catalog slots file_entries).1)
    (entries_report catalog slots file_entries).2.
Proof.
  intros Hslots. revert file_entries.
  induction Hslots as [|i slots Hi _ IH]; intros file_entries.
  - apply emits_ret.
  - cbn [mfor entries_report].
    assert (emits fs (lift (getitem catalog (0x0B + i * 0x23)))
              (inr (byte_at catalog (0x0B + i * 0x23))) []) as Hread.
    { rewrite getitem_byte_at by done. apply emits_lift. }
    destruct (negb (byte_at catalog (0x0B + i * 0x23) =? 0x00) &&
              negb (byte_at catalog (0x0B + i * 0x23) =? 0xFF)) eqn:Hlive;
      cbn [fst snd].
    + eapply (emits_bind fs _ _ (file_entries + 1) _ [_] _); [|apply IH].
      unfold count_entry. eapply (emits_bind fs _ _ _ _ [] [_]); [exact Hread|].
      cbv beta. rewrite Hlive. apply emits_print_bind, emits_ret.
    + eapply (emits_bind fs _ _ file_entries _ [] _); [|apply IH].
      unfold count_entry. eapply (emits_bind fs _ _ _ _ [] []); [exact Hread|].
      cbv beta. rewrite Hlive. apply emits_ret.
Qed.

Lemma Forall_range (P : Z → Prop) (n : Z) :
  (∀ i, 0 ≤ i < n → P i) → Forall P (range n).
Proof. intros H. apply Forall_forall. intros i Hi. by apply H, elem_of_range. Qed.

(** On an image that holds every byte the verifier indexes, the
    verifier prints [report] and returns [verdict]. *)
Lemma verify_disk_image_emits fs (disk_path : string) (image : bytes) :
  fs !! disk_path = Some image → 70110 ≤ len image →
  emits fs (verify_disk_image disk_path) (inr (verdict image)) (report disk_path image).
Proof.
  intros Hfile Hlen.
  pose proof (len_vtoc_of image ltac:(lia)) as Hvtoc.
  pose proof (len_catalog_of image Hlen) as Hcatalog.
  unfold verify_disk_image, report, verdict, vtoc_of, catalog_of in *.
  cbv zeta in *.
  apply emits_print_bind, emits_print_bind.
  eapply (emits_bind fs _ _ _ _ [] _); [apply emits_path_exists|].
  rewrite Hfile, bool_decide_true by done. cbn [negb].
  eapply (emits_bind fs _ _ _ _ [] _); [by apply emits_stat_size|].
  apply emits_print_bind.
  eapply (emits_bind fs _ _ tt _ (size_report _) _).
  { apply emits_if; [|apply emits_print]. apply emits_print_bind, emits_print. }
  eapply (emits_bind fs _ _ _ _ [] _); [by apply emits_read_file|].
  apply emits_print_bind, emits_print_bind.
  eapply (emits_bind fs _ _ tt _ (boot_report _) _).
  { apply emits_if; [|apply emits_print]. apply emits_print_bind, emits_print. }
  apply emits_print_bind.
  do 5 (eapply emits_lift_bind; [apply getitem_byte_at; lia|]).
  do 5 apply emits_print_bind.
  eapply (emits_bind fs _ _ tt _ (geometry_report _ _) _).
  { apply emits_if; apply emits_print. }
  apply emits_print_bind.
  do 2 (eapply emits_lift_bind; [apply getitem_byte_at; lia|]).
  apply emits_print_bind.
  eapply emits_bind.
  { apply count_entry_loop, Forall_range. intros i Hi. lia. }
  eapply (emits_bind fs _ _ tt _ (files_report _) _).
  { apply emits_if; apply emits_print. }
  apply emits_print_bind.
  unfold verdict_report.
  destruct ((len image =? DISK_SIZE) && _);
    apply emits_print_bind, emits_ret.
Qed.

Lemma emits_run {A} (m : M A) (r : result A) (out : list line) (w : World) :
  emits (files w) m r out →
  m w = (r, {| files := files w; stdout := stdout w ++ out |}).
Proof. intros Hm. destruct w as [fs so]. apply Hm. Qed.

Lemma format_dos33_run (self : DiskImage) (w : World) :
  format_dos33 self w =
    (inr (formatted self),
     {| files := files w;
        stdout := stdout w ++ [FormattingDisk (name self); FilesystemCreated] |}).
Proof. apply emits_run, format_dos33_emits. Qed.

Lemma formatted_vtoc_all_used (track sector : Z) :
  valid_address track sector → sector_free formatted_vtoc track sector = inr false.
Proof.
  intros Hv. apply elem_of_all_addresses, list_elem_of_In in Hv.
  assert (forallb (λ ts, match sector_free formatted_vtoc ts.1 ts.2 with
                         | inr false => true
                         | _ => false
                         end) all_addresses = true) as Hall
    by (vm_compute; reflexivity).
  rewrite forallb_forall in Hall. specialize (Hall _ Hv). simpl in Hall.
  by destruct (sector_free formatted_vtoc track sector) as [|[]].
Qed.

(** C1 (the code departs from the claim). After [format_dos33] every
    sector of track 17 is marked used in the bitmap of the VTOC, as the
    claim says; but so is every sector of every other track: the bitmap
    bytes are never set, so no sector of the disk is marked free. *)
Theorem format_dos33_marks_every_sector_used (self : DiskImage) (w : World) :
  well_formed self →
  ∃ self' w' vtoc,
    format_dos33 self w = (inr self', w') ∧
    get_sector self' DOS33_VTOC_TRACK DOS33_VTOC_SECTOR = inr vtoc ∧
    ∀ track sector, valid_address track sector →
      sector_free vtoc track sector = inr false.
Proof.
  intros Hwf. destruct (formatted_sectors self Hwf) as (_ & Hvtoc & _).
  eexists _, _, _. split; [apply format_dos33_run|].
  split; [exact Hvtoc|]. exact formatted_vtoc_all_used.
Qed.


Lemma format_dos33_marks_every_sector_used_witness :
  well_formed (DiskImage_init "dos33" "DISK") ∧
  ∃ self' w' vtoc,
    format_dos33 (DiskImage_init "dos33" "DISK") empty_world = (inr self', w') ∧
    get_sector self' DOS33_VTOC_TRACK DOS33_VTOC_SECTOR = inr vtoc ∧
    ∀ track sector, valid_address track sector →
      sector_free vtoc track sector = inr false.
Proof.
  split; [vm_compute; reflexivity|].
  apply (format_dos33_marks_every_sector_used (DiskImage_init "dos33" "DISK") empty_world).
  vm_compute; reflexivity.
Defined.

(** C6. After [format_dos33] the sector at track 17, sector 0 holds the
    header of the VTOC: first catalog track 17 at 0x01, first catalog
    sector 1 at 0x02, DOS version 3 at 0x03, 35 tracks at 0x34, 16
    sectors per track at 0x35, and 256 bytes per sector as the
    little-endian pair 0x36 = 0, 0x37 = 1. *)
Theorem format_dos33_vtoc_header (self : DiskImage) (w : World) :
  well_formed self →
  ∃ self' w' vtoc,
    format_dos33 self w = (inr self', w') ∧
    get_sector self' DOS33_VTOC_TRACK DOS33_VTOC_SECTOR = inr vtoc ∧
    getitem vtoc 0x01 = inr DOS33_CATALOG_TRACK ∧
    getitem vtoc 0x02 = inr DOS33_CATALOG_SECTOR ∧
    getitem vtoc 0x03 = inr 3 ∧
    getitem vtoc 0x34 = inr TRACKS_PER_DISK ∧
    getitem vtoc 0x35 = inr SECTORS_PER_TRACK ∧
    ∃ lo hi,
      getitem vtoc 0x36 = inr lo ∧ getitem vtoc 0x37 = inr hi ∧
      lo = 0 ∧ hi = 1 ∧ lo + 256 * hi = BYTES_PER_SECTOR.
Proof.
  intros Hwf. destruct (formatted_sectors self Hwf) as (_ & Hvtoc & _).
  eexists _, _, _. split; [apply format_dos33_run|].
  split; [exact Hvtoc|]. do 5 (split; [reflexivity|]).
  exists 0, 1. repeat split.
Qed.

Lemma format_dos33_vtoc_header_witness :
  well_formed (DiskImage_init "dos33" "POP_BOOT") ∧
  ∃ self' w' vtoc,
    format_dos33 (DiskImage_init "dos33" "POP_BOOT") empty_world = (inr self', w') ∧
    get_sector self' DOS33_VTOC_TRACK DOS33_VTOC_SECTOR = inr vtoc ∧
    getitem vtoc 0x01 = inr DOS33_CATALOG_TRACK ∧
    getitem vtoc 0x02 = inr DOS33_CATALOG_SECTOR ∧
    getitem vtoc 0x03 = inr 3 ∧
    getitem vtoc 0x34 = inr TRACKS_PER_DISK ∧
    getitem vtoc 0x35 = inr SECTORS_PER_TRACK ∧
    ∃ lo hi,
      getitem vtoc 0x36 = inr lo ∧ getitem vtoc 0x37 = inr hi ∧
      lo = 0 ∧ hi = 1 ∧ lo + 256 * hi = BYTES_PER_SECTOR.
Proof.
  split; [vm_compute; reflexivity|].
  apply (format_dos33_vtoc_header (DiskImage_init "dos33" "POP_BOOT") empty_world).
  vm_compute; reflexivity.
Defined.

(** ** Negative addresses *)

(** C5 (the code departs from the claim). [set_sector] has no lower
    bound on its address: at track 0, sector -1 the write of a full
    sector is accepted, and instead of changing 256 bytes in place it
    inserts the payload before the last 256 bytes of the buffer, which
    grows to 143,616 bytes. *)
Theorem set_sector_negative_sector_inserts (self : DiskImage) (p : bytes) :
  well_formed self → len p = BYTES_PER_SECTOR →
  ∃ self',
    set_sector self 0 (-1) p = inr self' ∧
    data self' = take (Z.to_nat (DISK_SIZE - 256)) (data self) ++ p ++
                 drop (Z.to_nat (DISK_SIZE - 256)) (data self) ∧
    len (data self') = DISK_SIZE + BYTES_PER_SECTOR.
Proof.
  unfold well_formed. intros Hwf Hp.
  assert (BYTES_PER_SECTOR = 256) as HB by done.
  assert (DISK_SIZE = 143360) as HD by done.
  rewrite set_sector_below by first [done | lia].
  eexists. split; [reflexivity|]. cbn [data].
  assert (setslice (data self) (sector_offset 0 (-1)) (sector_offset 0 (-1) + len p) p
          = take (Z.to_nat (DISK_SIZE - 256)) (data self) ++ p ++
            drop (Z.to_nat (DISK_SIZE - 256)) (data self)) as ->.
  { unfold setslice. rewrite Hp, Hwf. reflexivity. }
  split; [done|]. unfold len in *.
  rewrite !length_app, length_take, length_drop. lia.
Qed.

Lemma set_sector_negative_sector_inserts_witness :
  well_formed (DiskImage_init "dos33" "DISK") ∧
  len (bytearray 256) = BYTES_PER_SECTOR ∧
  ∃ self',
    set_sector (DiskImage_init "dos33" "DISK") 0 (-1) (bytearray 256) = inr self' ∧
    data self' = take (Z.to_nat (DISK_SIZE - 256)) (data (DiskImage_init "dos33" "DISK"))
                 ++ bytearray 256 ++
                 drop (Z.to_nat (DISK_SIZE - 256)) (data (DiskImage_init "dos33" "DISK")) ∧
    len (data self') = DISK_SIZE + BYTES_PER_SECTOR.
Proof.
  split; [vm_compute; reflexivity|]. split; [vm_compute; reflexivity|].
  apply (set_sector_negative_sector_inserts (DiskImage_init "dos33" "DISK") (bytearray 256));
    vm_compute; reflexivity.
Defined.

(** C10. [get_sector] and [set_sector] test only the upper bounds. At
    track -1, sector 0 the offset is negative and neither call raises.
    By negative indexing both act on the bytes 4096 from the end of a
    buffer of 143,360 bytes: the read returns the 256 bytes from position
    139,264 on; the write replaces the [len p] bytes from that position
    on by the payload, keeps every other byte and the length of the
    buffer, and the payload is what a read at the same address then
    starts with. Both calls do what the same call at track 34, sector 0
    does. *)
Theorem negative_track_wraps_to_end (self : DiskImage) (p : bytes) :
  well_formed self → len p ≤ BYTES_PER_SECTOR →
  sector_offset (-1) 0 < 0 ∧
  (∃ old,
     get_sector self (-1) 0 = inr old ∧
     old = take (Z.to_nat BYTES_PER_SECTOR) (drop (Z.to_nat (DISK_SIZE - 4096)) (data self)) ∧
     len old = BYTES_PER_SECTOR) ∧
  (∃ self',
     set_sector self (-1) 0 p = inr self' ∧
     data self' = take (Z.to_nat (DISK_SIZE - 4096)) (data self) ++ p ++
                  drop (Z.to_nat (DISK_SIZE - 4096 + len p)) (data self) ∧
     len (data self') = DISK_SIZE ∧
     get_sector self' (-1) 0
       = inr (p ++ take (Z.to_nat (BYTES_PER_SECTOR - len p))
                     (drop (Z.to_nat (DISK_SIZE - 4096 + len p)) (data self)))) ∧
  get_sector self (-1) 0 = get_sector self 34 0 ∧
  set_sector self (-1) 0 p = set_sector self 34 0 p.
Proof.
  unfold well_formed. intros Hwf Hp. pose proof (len_nonneg p) as Hp0.
  assert (BYTES_PER_SECTOR = 256) as HB by done.
  assert (DISK_SIZE = 143360) as HD by done.
  assert (sector_offset (-1) 0 = -4096) as Hneg by done.
  assert (sector_offset 34 0 = 139264) as Hpos by done.
  assert (∀ l : bytes, len l = DISK_SIZE →
            getslice l (-4096) (-4096 + BYTES_PER_SECTOR)
            = take (Z.to_nat BYTES_PER_SECTOR) (drop (Z.to_nat (DISK_SIZE - 4096)) l))
    as Hget.
  { intros l Hl. unfold getslice. rewrite Hl. reflexivity. }
  assert (getslice (data self) (-4096) (-4096 + BYTES_PER_SECTOR)
          = getslice (data self) 139264 (139264 + BYTES_PER_SECTOR)) as Hget34.
  { unfold getslice. rewrite Hwf. reflexivity. }
  assert (setslice (data self) (-4096) (-4096 + len p) p
          = take (Z.to_nat (DISK_SIZE - 4096)) (data self) ++ p ++
            drop (Z.to_nat (DISK_SIZE - 4096 + len p)) (data self)) as Hset.
  { unfold setslice. rewrite Hwf.
    rewrite (slice_index_negative _ (-4096 + len p)) by lia.
    rewrite (slice_index_negative _ (-4096)) by lia.
    do 4 f_equal; lia. }
  assert (setslice (data self) (-4096) (-4096 + len p) p
          = setslice (data self) 139264 (139264 + len p) p) as Hset34.
  { rewrite Hset. rewrite setslice_in_range by lia. do 4 f_equal; lia. }
  assert (len (take (Z.to_nat (DISK_SIZE - 4096)) (data self) ++ p ++
               drop (Z.to_nat (DISK_SIZE - 4096 + len p)) (data self)) = DISK_SIZE)
    as Hlen.
  { unfold len in *. rewrite !length_app, length_take, length_drop. lia. }
  rewrite !get_sector_below, !set_sector_below by first [done | lia].
  rewrite Hneg, Hpos, <- Hget34, <- Hset34, Hset, (Hget _ Hwf).
  split; [done|]. split; [|split; [|done]].
  - eexists. split; [done|]. split; [done|].
    unfold len in *. rewrite length_take, length_drop. lia.
  - eexists. split; [done|]. cbn [data]. split; [done|]. split; [exact Hlen|].
    rewrite get_sector_below by done. rewrite Hneg. cbn [data]. f_equal.
    rewrite (Hget _ Hlen).
    unfold len in *.
    rewrite drop_app_length'; [|rewrite length_take; lia].
    rewrite take_app_ge by lia. do 2 f_equal. lia.
Qed.

Lemma negative_track_wraps_to_end_witness :
  well_formed (DiskImage_init "dos33" "DISK") ∧
  len [1; 2; 3] ≤ BYTES_PER_SECTOR ∧
  ∃ self',
    set_sector (DiskImage_init "dos33" "DISK") (-1) 0 [1; 2; 3] = inr self' ∧
    len (data self') = DISK_SIZE ∧
    get_sector self' (-1) 0
      = inr ([1; 2; 3] ++ take (Z.to_nat (BYTES_PER_SECTOR - len [1; 2; 3]))
                            (drop (Z.to_nat (DISK_SIZE - 4096 + len [1; 2; 3]))
                               (data (DiskImage_init "dos33" "DISK")))).
Proof.
  assert (well_formed (DiskImage_init "dos33" "DISK")) as Hwf
    by (vm_compute; reflexivity).
  assert (len [1; 2; 3] ≤ BYTES_PER_SECTOR) as Hp by (vm_compute; discriminate).
  split; [exact Hwf|]. split; [exact Hp|].
  destruct (negative_track_wraps_to_end _ _ Hwf Hp)
    as (_ & _ & (self' & Hset & _ & Hlen & Hget) & _).
  exists self'. split; [exact Hset|]. split; [exact Hlen|exact Hget].
Defined.

(** ** Adding a file *)

Lemma add_file_dos33_emits fs (self : DiskImage) (filename : string) (payload : bytes)
    (file_type load_address : Z) :
  emits fs (add_file_dos33 self filename payload file_type load_address) (inr self)
    [AddingFile (cut_filename filename) (len payload) file_type load_address].
Proof. unfold add_file_dos33. apply emits_print_bind, emits_ret. Qed.

Lemma add_file_dos33_run (self : DiskImage) (filename : string) (payload : bytes)
    (file_type load_address : Z) (w : World) :
  add_file_dos33 self filename payload file_type load_address w =
    (inr self,
     {| files := files w;
        stdout := stdout w ++
          [AddingFile (cut_filename filename) (len payload) file_type load_address] |}).
Proof. apply emits_run, add_file_dos33_emits. Qed.

(** C9. Whatever the file name, payload, file type and load address,
    [add_file_dos33] returns with the image buffer as it was: every
    sector reads as before (no data sector, track-sector list or catalog
    entry is written), every bit of the VTOC bitmap is as before, and no
    file is written either. *)
Theorem add_file_dos33_leaves_image_unchanged (self : DiskImage) (filename : string)
    (payload : bytes) (file_type load_address : Z) (w : World) :
  ∃ self' w',
    add_file_dos33 self filename payload file_type load_address w = (inr self', w') ∧
    data self' = data self ∧
    (∀ track sector, get_sector self' track sector = get_sector self track sector) ∧
    (∀ vtoc, get_sector self DOS33_VTOC_TRACK DOS33_VTOC_SECTOR = inr vtoc →
       get_sector self' DOS33_VTOC_TRACK DOS33_VTOC_SECTOR = inr vtoc) ∧
    files w' = files w.
Proof.
  eexists _, _. split; [apply add_file_dos33_run|]. done.
Qed.

(** C2 (amended). [add_file_dos33] raises for no input: a zero-length
    payload and a payload larger than the whole disk both return
    normally, and after every call the image buffer is byte for byte
    what it was before. *)
Theorem add_file_dos33_never_raises (self : DiskImage) (filename : string)
    (payload : bytes) (file_type load_address : Z) (w : World) :
  (∃ w', add_file_dos33 self filename [] file_type load_address w = (inr self, w')) ∧
  (∃ w', add_file_dos33 self filename payload file_type load_address w = (inr self, w')) ∧
  (∀ e w', add_file_dos33 self filename payload file_type load_address w ≠ (inl e, w')).
Proof.
  rewrite !add_file_dos33_run. split; [by eexists|]. split; [by eexists|]. done.
Qed.

(** C2, as stated, fails: on a freshly formatted image an empty payload
    is not rejected, and neither is a payload one byte larger than the
    disk. *)
Lemma add_file_dos33_rejects_nothing :
  ¬ ((∃ e w', add_file_dos33 (formatted (DiskImage_init "dos33" "DISK")) "X" []
                0x04 0x2000 empty_world = (inl e, w')) ∨
     (∃ e w', add_file_dos33 (formatted (DiskImage_init "dos33" "DISK")) "X"
                (bytearray (DISK_SIZE + 1)) 0x04 0x2000 empty_world = (inl e, w'))).
Proof.
  rewrite !add_file_dos33_run. intros [(e & w' & H)|(e & w' & H)]; discriminate.
Qed.

(** ** Formatting, adding and saving *)

Lemma save_run (self : DiskImage) (path : string) (w : World) :
  save self path w =
    (inr tt, {| files := <[path:=data self]> (files w);
                stdout := stdout w ++ [DiskImageSaved path (len (data self))] |}).
Proof. reflexivity. Qed.

Lemma format_add_save_run (fmt nm path filename : string) (payload : bytes)
    (file_type load_address : Z) (w : World) :
  format_add_save fmt nm path filename payload file_type load_address w =
    (inr (formatted (DiskImage_init fmt nm)),
     {| files := <[path:=data (formatted (DiskImage_init fmt nm))]> (files w);
        stdout := stdout w ++
          [FormattingDisk (name (DiskImage_init fmt nm)); FilesystemCreated;
           AddingFile (cut_filename filename) (len payload) file_type load_address;
           DiskImageSaved path (len (data (formatted (DiskImage_init fmt nm))))] |}).
Proof.
  unfold format_add_save. unfold mbind at 1, M_bind at 1. rewrite format_dos33_run.
  unfold mbind at 1, M_bind at 1. rewrite add_file_dos33_run.
  unfold mbind at 1, M_bind at 1. rewrite save_run. cbn [files stdout mret M_ret].
  by rewrite <- !app_assoc.
Qed.

Lemma formatted_image_eq (fmt nm : string) :
  data (formatted (DiskImage_init fmt nm)) = formatted_image.
Proof. unfold formatted_image, formatted, DiskImage_init. cbn [data]. reflexivity. Qed.

Lemma formatted_image_entries :
  entries_report (catalog_of formatted_image) (range 7) 0 = (0, []).
Proof. vm_compute. reflexivity. Qed.

(** C3 (amended). Formatting, adding a payload as the file X and saving
    gives, for every payload, the image that formatting alone gives:
    the payload is not stored, and the first catalog sector has no file
    entry for a reader to follow. *)
Theorem add_file_dos33_stores_nothing (fmt nm path filename : string) (payload : bytes)
    (file_type load_address : Z) (w : World) :
  ∃ disk w',
    format_add_save fmt nm path filename payload file_type load_address w = (inr disk, w') ∧
    disk = formatted (DiskImage_init fmt nm) ∧
    files w' !! path = Some (data (formatted (DiskImage_init fmt nm))) ∧
    entries_report (catalog_of (data disk)) (range 7) 0 = (0, []).
Proof.
  eexists _, _. split; [apply format_add_save_run|]. split; [done|].
  split; [apply lookup_insert_eq|].
  rewrite formatted_image_eq. exact formatted_image_entries.
Qed.

(** C3, as stated, fails for every reader: what is read back after
    adding one byte and after adding 257 bytes is read from the same
    image, so it cannot have one sector in one case and two in the other. *)
Lemma add_file_dos33_no_round_trip :
  ¬ ∃ readFile, reads_back readFile [0x41] ∧ reads_back readFile (replicate 257 0x41).
Proof.
  intros (readFile & (d1 & w1 & r1 & Hrun1 & Hread1 & Hlen1)
                   & (d2 & w2 & r2 & Hrun2 & Hread2 & Hlen2)).
  rewrite format_add_save_run in Hrun1, Hrun2.
  apply (f_equal fst) in Hrun1, Hrun2. cbn [fst] in Hrun1, Hrun2.
  assert (d1 = d2) as -> by congruence.
  assert (r1 = r2) as -> by congruence.
  rewrite Hlen1 in Hlen2. vm_compute in Hlen2. discriminate.
Qed.

(** ** What the verifier reports *)

Lemma verify_disk_image_run (disk_path : string) (image : bytes) (w : World) :
  files w !! disk_path = Some image → 70110 ≤ len image →
  verify_disk_image disk_path w =
    (inr (verdict image),
     {| files := files w; stdout := stdout w ++ report disk_path image |}).
Proof. intros Hfile Hlen. by apply emits_run, verify_disk_image_emits. Qed.

Lemma entries_report_lines (catalog : bytes) (slots : list Z) (file_entries : Z) :
  Forall is_file_entry (entries_report catalog slots file_entries).2.
Proof.
  revert file_entries. induction slots as [|i slots IH]; intros file_entries.
  - constructor.
  - cbn [entries_report]. destruct (_ && _); [|apply IH].
    constructor; [exact I|apply IH].
Qed.

Lemma elem_of_size_report (size : Z) (l : line) :
  l ∈ size_report size ↔
    (size = DISK_SIZE ∧ l = CorrectSize) ∨
    (size ≠ DISK_SIZE ∧
     (l = WarnExpectedSize DISK_SIZE ∨ l = SizeDifference (size - DISK_SIZE))).
Proof.
  unfold size_report. destruct (Z.eqb_spec size DISK_SIZE); cbn [negb];
    rewrite ?elem_of_cons, ?elem_of_nil; intuition congruence.
Qed.

Lemma elem_of_boot_report (boot_sector : bytes) (l : line) :
  l ∈ boot_report boot_sector →
    l = BootSectorHasData ∨ l = BootSectorEmpty ∨
    l = First16Bytes (getslice boot_sector 0 16).
Proof.
  unfold boot_report. destruct (_ >? _);
    rewrite ?elem_of_cons, ?elem_of_nil; intuition congruence.
Qed.

Lemma elem_of_geometry_report (num_tracks sectors_per_track : Z) (l : line) :
  l ∈ geometry_report num_tracks sectors_per_track ↔
    ((num_tracks = 35 ∧ sectors_per_track = 16) ∧ l = ValidVtoc) ∨
    (¬ (num_tracks = 35 ∧ sectors_per_track = 16) ∧ l = UnexpectedGeometry).
Proof.
  unfold geometry_report.
  destruct (Z.eqb_spec num_tracks 35), (Z.eqb_spec sectors_per_track 16);
    cbn [andb]; rewrite ?elem_of_cons, ?elem_of_nil; intuition congruence.
Qed.

Lemma elem_of_files_report (file_entries : Z) (l : line) :
  l ∈ files_report file_entries → l = FoundFiles file_entries ∨ l = NoFiles.
Proof.
  unfold files_report. destruct (_ >? _);
    rewrite ?elem_of_cons, ?elem_of_nil; intuition congruence.
Qed.

Lemma elem_of_verdict_report (ok : bool) (l : line) :
  l ∈ verdict_report ok ↔
    (ok = true ∧ l = ValidImage) ∨ (ok = false ∧ l = ImageMayHaveIssues).
Proof.
  destruct ok; cbn [verdict_report]; rewrite ?elem_of_cons, ?elem_of_nil; intuition congruence.
Qed.

(** Finds which part of the report a given line can come from. *)
Ltac report_line H :=
  rewrite ?elem_of_cons, ?elem_of_nil in H;
  repeat match type of H with
         | _ ∨ _ => destruct H as [H|H]
         | ∃ _, _ => destruct H as [? H]
         end;
  try discriminate H; try (exfalso; exact H);
  try (apply elem_of_boot_report in H; intuition congruence);
  try (apply elem_of_files_report in H; intuition congruence);
  try (apply elem_of_size_report in H; intuition congruence);
  try (apply elem_of_geometry_report in H; intuition congruence);
  try (apply elem_of_verdict_report in H; intuition congruence);
  try congruence.

(** The lines of [report] that tell the outcome of the checks. *)
Lemma report_checks (disk_path : string) (image : bytes) :
  let vtoc := vtoc_of image in
  let out := report disk_path image in
  (CorrectSize ∈ out ↔ len image = DISK_SIZE) ∧
  (WarnExpectedSize DISK_SIZE ∈ out ↔ len image ≠ DISK_SIZE) ∧
  (ValidVtoc ∈ out ↔ byte_at vtoc 0x34 = 35 ∧ byte_at vtoc 0x35 = 16) ∧
  (UnexpectedGeometry ∈ out ↔ ¬ (byte_at vtoc 0x34 = 35 ∧ byte_at vtoc 0x35 = 16)) ∧
  (∀ v, DosVersion v ∈ out ↔ v = byte_at vtoc 0x03) ∧
  (ValidImage ∈ out ↔ verdict image = true) ∧
  (ImageMayHaveIssues ∈ out ↔ verdict image = false).
Proof.
  cbv zeta.
  assert (∀ l, l ∈ report disk_path image →
            l ∈ [Verifying disk_path; Rule; FileSize (len image); BootSectorHeading;
                 NonZeroBytes (count_non_zero (getslice image 0 BYTES_PER_SECTOR));
                 VtocHeading; VolumeNumber (byte_at (vtoc_of image) 0x06);
                 MaxPairs (byte_at (vtoc_of image) 0x27);
                 Tracks (byte_at (vtoc_of image) 0x34);
                 SectorsPerTrack (byte_at (vtoc_of image) 0x35);
                 CatalogHeading;
                 NextCatalog (byte_at (catalog_of image) 0x01)
                   (byte_at (catalog_of image) 0x02);
                 BlankRule] ∨
            is_file_entry l ∨
            (∃ b, l ∈ boot_report b) ∨ (∃ n, l ∈ files_report n) ∨
            l = DosVersion (byte_at (vtoc_of image) 0x03) ∨
            l ∈ size_report (len image) ∨
            l ∈ geometry_report (byte_at (vtoc_of image) 0x34)
                  (byte_at (vtoc_of image) 0x35) ∨
            l ∈ verdict_report (verdict image)) as Hsplit.
  { intros l. unfold report. cbv zeta.
    rewrite !elem_of_app, !elem_of_cons, !elem_of_nil.
    intros H.
    repeat match type of H with
           | _ ∨ _ => destruct H as [H|H]
           end;
      try (subst l; tauto); try tauto; try (right; right; left; by eexists);
      try (right; right; right; left; by eexists).
    right. left.
    eapply Forall_forall; [apply entries_report_lines|exact H]. }
  assert (∀ l, l ∈ size_report (len image) → l ∈ report disk_path image) as Hsize.
  { intros l Hl. unfold report. cbv zeta. rewrite !elem_of_app. tauto. }
  assert (∀ l, l ∈ geometry_report (byte_at (vtoc_of image) 0x34)
                     (byte_at (vtoc_of image) 0x35) → l ∈ report disk_path image)
    as Hgeometry.
  { intros l Hl. unfold report. cbv zeta. rewrite !elem_of_app. tauto. }
  assert (∀ l, l ∈ verdict_report (verdict image) → l ∈ report disk_path image)
    as Hverdict.
  { intros l Hl. unfold report. cbv zeta. rewrite !elem_of_app. tauto. }
  assert (DosVersion (byte_at (vtoc_of image) 0x03) ∈ report disk_path image) as Hversion.
  { unfold report. cbv zeta. rewrite !elem_of_app, !elem_of_cons. tauto. }
  repeat match goal with |- _ ∧ _ => split end.
  - split.
    + intros H. apply Hsplit in H. report_line H.
    + intros H. apply Hsize, elem_of_size_report. tauto.
  - split.
    + intros H. apply Hsplit in H. report_line H.
    + intros H. apply Hsize, elem_of_size_report. tauto.
  - split.
    + intros H. apply Hsplit in H. report_line H.
    + intros H. apply Hgeometry, elem_of_geometry_report. tauto.
  - split.
    + intros H. apply Hsplit in H. report_line H.
    + intros H. apply Hgeometry, elem_of_geometry_report. tauto.
  - intros v. split.
    + intros H. apply Hsplit in H. report_line H.
    + by intros ->.
  - split.
    + intros H. apply Hsplit in H. report_line H.
    + intros H. apply Hverdict, elem_of_verdict_report. tauto.
  - split.
    + intros H. apply Hsplit in H. report_line H.
    + intros H. apply Hverdict, elem_of_verdict_report. tauto.
Qed.

(** C7 (amended). On every image long enough for the bytes the
    verifier indexes (70,110 bytes or more), the verifier reports the
    length check and the geometry check each on its own, whatever the
    outcome of the other checks, and prints the DOS version tag it
    found; its verdict is success exactly when the length is 143,360
    and the version tag is 3. The geometry check does not enter the
    verdict. *)
Theorem verify_disk_image_checks (disk_path : string) (image : bytes) (w : World) :
  files w !! disk_path = Some image → 70110 ≤ len image →
  ∃ ok out,
    verify_disk_image disk_path w
      = (inr ok, {| files := files w; stdout := stdout w ++ out |}) ∧
    (CorrectSize ∈ out ↔ len image = DISK_SIZE) ∧
    (WarnExpectedSize DISK_SIZE ∈ out ↔ len image ≠ DISK_SIZE) ∧
    (ValidVtoc ∈ out ↔
       byte_at (vtoc_of image) 0x34 = 35 ∧ byte_at (vtoc_of image) 0x35 = 16) ∧
    (UnexpectedGeometry ∈ out ↔
       ¬ (byte_at (vtoc_of image) 0x34 = 35 ∧ byte_at (vtoc_of image) 0x35 = 16)) ∧
    (∀ v, DosVersion v ∈ out ↔ v = byte_at (vtoc_of image) 0x03) ∧
    (ValidImage ∈ out ↔ ok = true) ∧
    (ImageMayHaveIssues ∈ out ↔ ok = false) ∧
    (ok = true ↔ len image = DISK_SIZE ∧ byte_at (vtoc_of image) 0x03 = 3).
Proof.
  intros Hfile Hlen. exists (verdict image), (report disk_path image).
  split; [by apply verify_disk_image_run|].
  destruct (report_checks disk_path image) as (H1 & H2 & H3 & H4 & H5 & H6 & H7).
  repeat match goal with |- _ ∧ _ => split; [assumption|] end.
  unfold verdict. rewrite andb_true_iff, !Z.eqb_eq. done.
Qed.

Lemma formatted_image_long : 70110 ≤ len formatted_image.
Proof. vm_compute. discriminate. Qed.

Lemma verify_disk_image_checks_witness :
  files (world_with "disk.dsk" formatted_image) !! "disk.dsk" = Some formatted_image ∧
  70110 ≤ len formatted_image ∧
  ∃ ok out,
    verify_disk_image "disk.dsk" (world_with "disk.dsk" formatted_image)
      = (inr ok, {| files := files (world_with "disk.dsk" formatted_image);
                    stdout := stdout (world_with "disk.dsk" formatted_image) ++ out |}) ∧
    (ok = true ↔ len formatted_image = DISK_SIZE ∧ byte_at (vtoc_of formatted_image) 0x03 = 3).
Proof.
  assert (files (world_with "disk.dsk" formatted_image) !! "disk.dsk" = Some formatted_image)
    as Hfile by apply lookup_singleton_eq.
  assert (70110 ≤ len formatted_image) as Hlen by (vm_compute; discriminate).
  split; [exact Hfile|]. split; [exact Hlen|].
  destruct (verify_disk_image_checks "disk.dsk" formatted_image _ Hfile Hlen)
    as (ok & out & Hrun & _ & _ & _ & _ & _ & _ & _ & Hok).
  exists ok, out. split; [exact Hrun|exact Hok].
Defined.

(** C7, as stated, fails. An image of the right length whose VTOC holds
    the version tag 3 and zeros for its geometry is given the verdict
    success although the geometry check reports a failure; and on an
    image of one byte the verifier stops with an [IndexError] after the
    length check, with no geometry check and no verdict. *)
Lemma verify_disk_image_verdict_ignores_geometry :
  ((verify_disk_image "disk.dsk" (world_with "disk.dsk" version_only_image)).1 = inr true ∧
   UnexpectedGeometry
     ∈ stdout (verify_disk_image "disk.dsk" (world_with "disk.dsk" version_only_image)).2 ∧
   byte_at (vtoc_of version_only_image) 0x34 = 0) ∧
  verify_disk_image "disk.dsk" (world_with "disk.dsk" one_byte_image)
    = (inl IndexError,
       {| files := {["disk.dsk" := one_byte_image]};
          stdout := [Verifying "disk.dsk"; Rule; FileSize 1;
                     WarnExpectedSize DISK_SIZE; SizeDifference (1 - DISK_SIZE);
                     BootSectorHeading; NonZeroBytes 0; BootSectorEmpty;
                     VtocHeading] |}).
Proof.
  split.
  - rewrite verify_disk_image_run with (image := version_only_image);
      [|apply lookup_singleton_eq|vm_compute; discriminate].
    cbn [fst snd stdout world_with app].
    split; [|split]; [vm_compute; reflexivity| |vm_compute; reflexivity].
    apply report_checks. vm_compute. intros [H _]. discriminate H.
  - destruct (world_with "disk.dsk" one_byte_image) as [fs so] eqn:Hw.
    injection Hw as <- <-.
    assert (emits {["disk.dsk" := one_byte_image]} (verify_disk_image "disk.dsk")
              (inl IndexError)
              [Verifying "disk.dsk"; Rule; FileSize 1;
               WarnExpectedSize DISK_SIZE; SizeDifference (1 - DISK_SIZE);
               BootSectorHeading; NonZeroBytes 0; BootSectorEmpty;
               VtocHeading]) as Hrun.
    { unfold verify_disk_image.
      apply emits_print_bind, emits_print_bind.
      eapply (emits_bind _ _ _ _ _ [] _); [apply emits_path_exists|].
      rewrite lookup_singleton_eq, bool_decide_true by done. cbn [negb].
      eapply (emits_bind _ _ _ _ _ [] _);
        [apply emits_stat_size, lookup_singleton_eq|].
      apply emits_print_bind.
      eapply (emits_bind _ _ _ tt _ [_; _] _).
      { apply emits_print_bind, emits_print. }
      eapply (emits_bind _ _ _ _ _ [] _);
        [apply emits_read_file, lookup_singleton_eq|].
      apply emits_print_bind, emits_print_bind.
      eapply (emits_bind _ _ _ tt _ [_] _); [apply emits_print|].
      apply emits_print_bind. by apply emits_lift_raise. }
    apply Hrun.
Qed.

(** C8. Formatting a new image, saving it and running the verifier on
    the saved file prints the lines below and returns success: the
    length is right, the VTOC is valid with DOS version 3, 35 tracks and
    16 sectors per track, and the first catalog sector has no file entry
    (the verifier prints the no-files line and no file line). *)
Theorem verify_formatted_image (fmt nm path : string) (w : World) :
  format_save_verify fmt nm path w =
    (inr true,
     {| files := <[path:=data (formatted (DiskImage_init fmt nm))]> (files w);
        stdout := stdout w ++
          [FormattingDisk (name (DiskImage_init fmt nm)); FilesystemCreated;
           DiskImageSaved path DISK_SIZE;
           Verifying path; Rule; FileSize DISK_SIZE; CorrectSize;
           BootSectorHeading; NonZeroBytes 0; BootSectorEmpty;
           VtocHeading; DosVersion 3; VolumeNumber 254; MaxPairs 122;
           Tracks 35; SectorsPerTrack 16; ValidVtoc;
           CatalogHeading; NextCatalog 17 2; NoFiles;
           BlankRule; ValidImage] |}).
Proof.
  unfold format_save_verify.
  unfold mbind at 1, M_bind at 1. rewrite format_dos33_run.
  unfold mbind at 1, M_bind at 1. rewrite save_run.
  rewrite !formatted_image_eq.
  rewrite verify_disk_image_run with (image := formatted_image);
    [|apply lookup_insert_eq|exact formatted_image_long].
  cbn [files stdout].
  assert (verdict formatted_image = true) as -> by (vm_compute; reflexivity).
  assert (len formatted_image = DISK_SIZE) as -> by (vm_compute; reflexivity).
  assert (report path formatted_image =
          [Verifying path; Rule; FileSize DISK_SIZE; CorrectSize;
           BootSectorHeading; NonZeroBytes 0; BootSectorEmpty;
           VtocHeading; DosVersion 3; VolumeNumber 254; MaxPairs 122;
           Tracks 35; SectorsPerTrack 16; ValidVtoc;
           CatalogHeading; NextCatalog 17 2; NoFiles;
           BlankRule; ValidImage]) as -> by (vm_compute; reflexivity).
  by rewrite <- !app_assoc.
Qed.

(** * The sectors, the verifier and the callers *)

(** ** Sectors as the parts of the buffer *)

Lemma well_formed_set_sector (self self' : DiskImage) (track sector : Z) (p : bytes) :
  well_formed self → valid_address track sector →
  set_sector self track sector p = inr self' → well_formed self'.
Proof. intros Hwf Hv Hset. by destruct (set_sector_frame _ _ _ _ _ Hwf Hv Hset). Qed.

Lemma set_sector_valid (self : DiskImage) (track sector : Z) (p : bytes) :
  valid_address track sector → len p ≤ BYTES_PER_SECTOR →
  set_sector self track sector p =
    inr {| format := format self; name := name self;
           data := setslice (data self) (sector_offset track sector)
                     (sector_offset track sector + len p) p |}.
Proof. intros [Ht Hs] Hp. apply set_sector_below; lia. Qed.

Lemma get_sector_valid (self : DiskImage) (track sector : Z) :
  valid_address track sector →
  get_sector self track sector =
    inr (getslice (data self) (sector_offset track sector)
           (sector_offset track sector + BYTES_PER_SECTOR)).
Proof. intros [Ht Hs]. apply get_sector_below; lia. Qed.

Lemma DiskImage_eq (d1 d2 : DiskImage) :
  format d1 = format d2 → name d1 = name d2 → data d1 = data d2 → d1 = d2.
Proof. destruct d1, d2. simpl. by intros -> -> ->. Qed.

(** X2. Round trip. On a buffer of 143,360 bytes, the write of a full
    sector of 256 bytes at an address of the geometry succeeds; reading
    that address back returns the payload, and reading any other address
    of the geometry returns what it returned before the write. *)
Theorem set_sector_get_sector_round_trip (self : DiskImage) (track sector : Z) (p : bytes) :
  well_formed self → valid_address track sector → len p = BYTES_PER_SECTOR →
  ∃ self',
    set_sector self track sector p = inr self' ∧
    get_sector self' track sector = inr p ∧
    ∀ track' sector', valid_address track' sector' →
      (track', sector') ≠ (track, sector) →
      get_sector self' track' sector' = get_sector self track' sector'.
Proof.
  intros Hwf Hv Hp.
  destruct (set_sector self track sector p) as [e|self'] eqn:Hset.
  { rewrite set_sector_valid in Hset by (done || lia). discriminate. }
  exists self'. split; [done|]. split.
  - by apply (get_set_sector_same self).
  - intros t' s' Hv' Hne. by eapply (get_set_sector_other self _ track sector).
Qed.

Lemma set_sector_get_sector_round_trip_witness :
  well_formed (DiskImage_init "dos33" "DISK") ∧
  valid_address 3 5 ∧
  len (replicate 256 7) = BYTES_PER_SECTOR ∧
  ∃ self',
    set_sector (DiskImage_init "dos33" "DISK") 3 5 (replicate 256 7) = inr self' ∧
    get_sector self' 3 5 = inr (replicate 256 7).
Proof.
  assert (well_formed (DiskImage_init "dos33" "DISK")) as Hwf by (vm_compute; reflexivity).
  assert (valid_address 3 5) as Hv by (vm_compute; intuition discriminate).
  assert (len (replicate 256 7) = BYTES_PER_SECTOR) as Hp by (vm_compute; reflexivity).
  split; [exact Hwf|]. split; [exact Hv|]. split; [exact Hp|].
  destruct (set_sector_get_sector_round_trip _ 3 5 _ Hwf Hv Hp) as (self' & Hset & Hget & _).
  exists self'. split; [exact Hset|exact Hget].
Defined.

(** X3. A payload shorter than a sector is not padded. After the write
    of [p] at an address of the geometry, the sector reads as [p]
    followed by the bytes the sector held before from position [len p]
    on. *)
Theorem set_sector_short_payload_keeps_tail (self : DiskImage) (track sector : Z)
    (p old : bytes) :
  well_formed self → valid_address track sector → len p ≤ BYTES_PER_SECTOR →
  get_sector self track sector = inr old →
  ∃ self',
    set_sector self track sector p = inr self' ∧
    get_sector self' track sector = inr (p ++ drop (length p) old).
Proof.
  intros Hwf Hv Hp Hold.
  pose proof (sector_offset_bounds _ _ Hv) as [Hlo Hhi].
  pose proof (len_nonneg p) as Hp0.
  assert (BYTES_PER_SECTOR = 256) as HB by done.
  rewrite get_sector_valid in Hold by done. injection Hold as <-.
  rewrite set_sector_valid by done. eexists. split; [done|].
  rewrite get_sector_valid by done. cbn [data]. f_equal.
  unfold well_formed in Hwf.
  apply list_eq. intros i.
  rewrite lookup_getslice by lia.
  destruct (decide (Z.of_nat i < len p)) as [Hi|Hi].
  - rewrite decide_True by lia. rewrite lookup_setslice by lia.
    rewrite decide_True by lia. rewrite lookup_app_l by (unfold len in *; lia).
    f_equal. lia.
  - rewrite lookup_app_r by (unfold len in *; lia).
    rewrite lookup_drop, lookup_getslice by lia.
    replace (length p + (i - length p))%nat with i by (unfold len in *; lia).
    case_decide; [|done].
    rewrite lookup_setslice by lia. rewrite decide_False by lia. done.
Qed.

Lemma set_sector_short_payload_keeps_tail_witness :
  well_formed (formatted (DiskImage_init "dos33" "DISK")) ∧
  valid_address 17 0 ∧
  len [9; 9] ≤ BYTES_PER_SECTOR ∧
  get_sector (formatted (DiskImage_init "dos33" "DISK")) 17 0 = inr formatted_vtoc ∧
  ∃ self',
    set_sector (formatted (DiskImage_init "dos33" "DISK")) 17 0 [9; 9] = inr self' ∧
    get_sector self' 17 0 = inr ([9; 9] ++ drop 2 formatted_vtoc).
Proof.
  assert (well_formed (formatted (DiskImage_init "dos33" "DISK"))) as Hwf
    by (vm_compute; reflexivity).
  assert (valid_address 17 0) as Hv by (vm_compute; intuition discriminate).
  assert (len [9; 9] ≤ BYTES_PER_SECTOR) as Hp by (vm_compute; discriminate).
  assert (get_sector (formatted (DiskImage_init "dos33" "DISK")) 17 0 = inr formatted_vtoc)
    as Hold by (vm_compute; reflexivity).
  split; [exact Hwf|]. split; [exact Hv|]. split; [exact Hp|]. split; [exact Hold|].
  exact (set_sector_short_payload_keeps_tail _ 17 0 [9; 9] formatted_vtoc Hwf Hv Hp Hold).
Defined.

Lemma setslice_setslice_commute (l p q : bytes) (a b : Z) :
  0 ≤ a → a + len p ≤ b → b + len q ≤ len l →
  setslice (setslice l a (a + len p) p) b (b + len q) q
  = setslice (setslice l b (b + len q) q) a (a + len p) p.
Proof.
  intros Ha Hab Hb. pose proof (len_nonneg p). pose proof (len_nonneg q).
  apply list_eq. intros i.
  rewrite lookup_setslice by (rewrite ?len_setslice; lia).
  rewrite (lookup_setslice (setslice l b _ q)) by (rewrite ?len_setslice; lia).
  rewrite !lookup_setslice by lia.
  repeat case_decide; try done; lia.
Qed.

(** X4. Writes to two different addresses of the geometry commute: the
    two orders end in the same disk object. *)
Theorem set_sector_distinct_commute (self : DiskImage) (t1 s1 t2 s2 : Z) (p q : bytes) :
  well_formed self → valid_address t1 s1 → valid_address t2 s2 →
  (t1, s1) ≠ (t2, s2) →
  len p ≤ BYTES_PER_SECTOR → len q ≤ BYTES_PER_SECTOR →
  (d ← set_sector self t1 s1 p; set_sector d t2 s2 q)
  = (d ← set_sector self t2 s2 q; set_sector d t1 s1 p).
Proof.
  intros Hwf Hv1 Hv2 Hne Hp Hq.
  rewrite (set_sector_valid self t1 s1), (set_sector_valid self t2 s2) by done.
  cbn [mbind result_bind]. rewrite !set_sector_valid by done. cbn [data format name].
  f_equal. f_equal.
  pose proof (sector_offset_bounds _ _ Hv1) as [Hlo1 Hhi1].
  pose proof (sector_offset_bounds _ _ Hv2) as [Hlo2 Hhi2].
  assert (BYTES_PER_SECTOR = 256) as HB by done.
  unfold well_formed in Hwf.
  assert (sector_offset t1 s1 + BYTES_PER_SECTOR ≤ sector_offset t2 s2 ∨
          sector_offset t2 s2 + BYTES_PER_SECTOR ≤ sector_offset t1 s1) as [Hd|Hd].
  { destruct Hv1, Hv2.
    unfold sector_offset, TRACKS_PER_DISK, SECTORS_PER_TRACK, BYTES_PER_SECTOR in *.
    destruct (decide (t1 = t2)) as [->|]; [|lia].
    destruct (decide (s1 = s2)) as [->|]; [done|lia]. }
  - apply setslice_setslice_commute; lia.
  - symmetry. apply setslice_setslice_commute; lia.
Qed.

Lemma set_sector_distinct_commute_witness :
  well_formed (DiskImage_init "dos33" "DISK") ∧
  valid_address 0 0 ∧ valid_address 17 1 ∧ (0, 0) ≠ (17, 1) ∧
  len [1; 2; 3] ≤ BYTES_PER_SECTOR ∧ len [4] ≤ BYTES_PER_SECTOR ∧
  (d ← set_sector (DiskImage_init "dos33" "DISK") 0 0 [1; 2; 3]; set_sector d 17 1 [4])
  = (d ← set_sector (DiskImage_init "dos33" "DISK") 17 1 [4]; set_sector d 0 0 [1; 2; 3]).
Proof.
  assert (well_formed (DiskImage_init "dos33" "DISK")) as Hwf by (vm_compute; reflexivity).
  assert (valid_address 0 0) as Hv1 by (vm_compute; intuition discriminate).
  assert (valid_address 17 1) as Hv2 by (vm_compute; intuition discriminate).
  assert ((0, 0) ≠ (17, 1)) as Hne by discriminate.
  assert (len [1; 2; 3] ≤ BYTES_PER_SECTOR) as Hp by (vm_compute; discriminate).
  assert (len [4] ≤ BYTES_PER_SECTOR) as Hq by (vm_compute; discriminate).
  refine (conj Hwf (conj Hv1 (conj Hv2 (conj Hne (conj Hp (conj Hq _)))))).
  exact (set_sector_distinct_commute _ 0 0 17 1 [1; 2; 3] [4] Hwf Hv1 Hv2 Hne Hp Hq).
Defined.

(** X5. The last write wins. A write to an address of the geometry
    followed by a write of a payload at least as long to the same
    address is the second write alone. *)
Theorem set_sector_last_write_wins (self : DiskImage) (track sector : Z) (p q : bytes) :
  well_formed self → valid_address track sector →
  len p ≤ len q → len q ≤ BYTES_PER_SECTOR →
  (d ← set_sector self track sector p; set_sector d track sector q)
  = set_sector self track sector q.
Proof.
  intros Hwf Hv Hpq Hq.
  rewrite (set_sector_valid self track sector p) by (done || lia).
  cbn [mbind result_bind]. rewrite !set_sector_valid by done. cbn [data format name].
  f_equal. f_equal.
  pose proof (sector_offset_bounds _ _ Hv) as [Hlo Hhi].
  pose proof (len_nonneg p).
  assert (BYTES_PER_SECTOR = 256) as HB by done.
  unfold well_formed in Hwf.
  apply list_eq. intros i.
  rewrite lookup_setslice by (rewrite ?len_setslice; lia).
  rewrite (lookup_setslice (data self) _ q) by lia.
  case_decide; [done|]. rewrite lookup_setslice by lia. rewrite decide_False by lia. done.
Qed.

Lemma set_sector_last_write_wins_witness :
  well_formed (DiskImage_init "dos33" "DISK") ∧
  valid_address 2 3 ∧
  len [1; 2] ≤ len [7; 8; 9] ∧ len [7; 8; 9] ≤ BYTES_PER_SECTOR ∧
  (d ← set_sector (DiskImage_init "dos33" "DISK") 2 3 [1; 2]; set_sector d 2 3 [7; 8; 9])
  = set_sector (DiskImage_init "dos33" "DISK") 2 3 [7; 8; 9].
Proof.
  assert (well_formed (DiskImage_init "dos33" "DISK")) as Hwf by (vm_compute; reflexivity).
  assert (valid_address 2 3) as Hv by (vm_compute; intuition discriminate).
  assert (len [1; 2] ≤ len [7; 8; 9]) as Hpq by (vm_compute; discriminate).
  assert (len [7; 8; 9] ≤ BYTES_PER_SECTOR) as Hq by (vm_compute; discriminate).
  refine (conj Hwf (conj Hv (conj Hpq (conj Hq _)))).
  exact (set_sector_last_write_wins _ 2 3 [1; 2] [7; 8; 9] Hwf Hv Hpq Hq).
Defined.

Lemma range_succ (n : nat) : range (Z.of_nat (S n)) = range (Z.of_nat n) ++ [Z.of_nat n].
Proof.
  unfold range. rewrite !Nat2Z.id. rewrite seq_S, fmap_app. done.
Qed.

Lemma concat_blocks (l : bytes) (n : nat) :
  Z.of_nat n * BYTES_PER_SECTOR ≤ len l →
  concat ((λ k, getslice l (k * BYTES_PER_SECTOR) (k * BYTES_PER_SECTOR + BYTES_PER_SECTOR))
            <$> range (Z.of_nat n))
  = take (Z.to_nat (Z.of_nat n * BYTES_PER_SECTOR)) l.
Proof.
  assert (BYTES_PER_SECTOR = 256) as HB by done.
  induction n as [|n IH]; intros Hn.
  - done.
  - rewrite range_succ, fmap_app, concat_app, IH by lia. simpl. rewrite app_nil_r.
    unfold getslice. rewrite !slice_index_in_range by lia.
    replace (Z.to_nat (Z.of_nat (S n) * BYTES_PER_SECTOR))
      with (Z.to_nat (Z.of_nat n * BYTES_PER_SECTOR) + Z.to_nat BYTES_PER_SECTOR)%nat by lia.
    rewrite <- take_take_drop. do 2 f_equal. lia.
Qed.

Lemma mapM_get_sector (self : DiskImage) (addresses : list (Z * Z)) :
  Forall (λ ts, valid_address ts.1 ts.2) addresses →
  mapM (λ ts, get_sector self ts.1 ts.2) addresses
  = inr ((λ ts, getslice (data self) (sector_offset ts.1 ts.2)
                  (sector_offset ts.1 ts.2 + BYTES_PER_SECTOR)) <$> addresses).
Proof.
  induction 1 as [|ts addresses Hv _ IH]; [done|].
  cbn [mapM]. rewrite get_sector_valid by done. cbn [mbind result_bind].
  rewrite IH. done.
Qed.

Lemma all_sector_offsets :
  (λ ts, sector_offset ts.1 ts.2) <$> all_addresses
  = (λ k, k * BYTES_PER_SECTOR) <$> range 560.
Proof. reflexivity. Qed.

(** X6. The sectors are the image. Reading the 560 addresses of the
    geometry in order, track by track, raises nothing and returns 560
    blocks of 256 bytes each whose concatenation is the buffer. *)
Theorem sectors_reassemble_image (self : DiskImage) :
  well_formed self →
  ∃ sectors,
    read_all_sectors self = inr sectors ∧
    length sectors = 560%nat ∧
    Forall (λ b, len b = BYTES_PER_SECTOR) sectors ∧
    concat sectors = data self.
Proof.
  intros Hwf. unfold well_formed in Hwf.
  assert (BYTES_PER_SECTOR = 256) as HB by done.
  assert (DISK_SIZE = 143360) as HD by done.
  eexists. split.
  { apply mapM_get_sector, Forall_forall. intros [t s] Hin.
    by apply elem_of_all_addresses. }
  split; [by rewrite length_fmap|]. split.
  - apply Forall_fmap, Forall_forall. intros [t s] Hin. simpl.
    apply elem_of_all_addresses in Hin.
    pose proof (sector_offset_bounds _ _ Hin) as [Hlo Hhi].
    rewrite len_getslice by lia. lia.
  - transitivity (concat ((λ o, getslice (data self) o (o + BYTES_PER_SECTOR))
                            <$> ((λ ts, sector_offset ts.1 ts.2) <$> all_addresses))).
    { by rewrite <- list_fmap_compose. }
    rewrite all_sector_offsets.
    rewrite <- list_fmap_compose.
    change 560 with (Z.of_nat 560).
    etransitivity; [apply (concat_blocks (data self) 560); lia|].
    apply take_ge. unfold len in Hwf. lia.
Qed.

Lemma sectors_reassemble_image_witness :
  well_formed (formatted (DiskImage_init "dos33" "DISK")) ∧
  ∃ sectors,
    read_all_sectors (formatted (DiskImage_init "dos33" "DISK")) = inr sectors ∧
    length sectors = 560%nat ∧
    Forall (λ b, len b = BYTES_PER_SECTOR) sectors ∧
    concat sectors = data (formatted (DiskImage_init "dos33" "DISK")).
Proof.
  assert (well_formed (formatted (DiskImage_init "dos33" "DISK"))) as Hwf
    by (vm_compute; reflexivity).
  split; [exact Hwf|]. exact (sectors_reassemble_image _ Hwf).
Defined.

(** ** Addresses below zero *)

(** X7. A negative track is an alias. For a track from -35 to -1 and a
    sector from 0 to 15, the pair (-1, 15) apart, the offset is negative,
    and the read and the write are the read and the write at track + 35
    of the same sector: neither raises. *)
Theorem negative_track_aliases (self : DiskImage) (track sector : Z) (p : bytes) :
  well_formed self →
  -TRACKS_PER_DISK ≤ track < 0 → 0 ≤ sector < SECTORS_PER_TRACK →
  (track, sector) ≠ (-1, 15) →
  len p ≤ BYTES_PER_SECTOR →
  sector_offset track sector < 0 ∧
  get_sector self track sector = get_sector self (track + TRACKS_PER_DISK) sector ∧
  set_sector self track sector p = set_sector self (track + TRACKS_PER_DISK) sector p.
Proof.
  unfold well_formed. intros Hwf Ht Hs Hne Hp. pose proof (len_nonneg p) as Hp0.
  assert (BYTES_PER_SECTOR = 256) as HB by done.
  assert (DISK_SIZE = 143360) as HD by done.
  assert (TRACKS_PER_DISK = 35) as HT by done.
  assert (SECTORS_PER_TRACK = 16) as HS by done.
  assert (sector_offset (track + TRACKS_PER_DISK) sector
          = sector_offset track sector + DISK_SIZE) as Hoff.
  { unfold sector_offset. lia. }
  assert (sector_offset track sector + 512 ≤ 0) as Hneg.
  { unfold sector_offset. rewrite HB, HS.
    destruct (decide (track = -1)) as [->|]; [|lia].
    destruct (decide (sector = 15)) as [->|]; [done|lia]. }
  assert (- DISK_SIZE ≤ sector_offset track sector) as Hlow.
  { unfold sector_offset. lia. }
  split; [lia|].
  rewrite !get_sector_below, !set_sector_below by lia.
  rewrite Hoff. split.
  - f_equal. unfold getslice. rewrite Hwf.
    rewrite !slice_index_negative, !slice_index_in_range by lia. do 3 f_equal; lia.
  - do 2 f_equal. unfold setslice. rewrite Hwf.
    rewrite !slice_index_negative, !slice_index_in_range by lia. do 5 f_equal; lia.
Qed.

Lemma negative_track_aliases_witness :
  well_formed (DiskImage_init "dos33" "DISK") ∧
  (-TRACKS_PER_DISK ≤ -18 < 0) ∧ (0 ≤ 0 < SECTORS_PER_TRACK) ∧
  (-18, 0) ≠ (-1, 15) ∧ len [1; 2; 3] ≤ BYTES_PER_SECTOR ∧
  get_sector (DiskImage_init "dos33" "DISK") (-18) 0
    = get_sector (DiskImage_init "dos33" "DISK") (-18 + TRACKS_PER_DISK) 0 ∧
  set_sector (DiskImage_init "dos33" "DISK") (-18) 0 [1; 2; 3]
    = set_sector (DiskImage_init "dos33" "DISK") (-18 + TRACKS_PER_DISK) 0 [1; 2; 3].
Proof.
  assert (well_formed (DiskImage_init "dos33" "DISK")) as Hwf by (vm_compute; reflexivity).
  assert (-TRACKS_PER_DISK ≤ -18 < 0) as Ht by (vm_compute; intuition discriminate).
  assert (0 ≤ 0 < SECTORS_PER_TRACK) as Hs by (vm_compute; intuition discriminate).
  assert ((-18, 0) ≠ (-1, 15)) as Hne by discriminate.
  assert (len [1; 2; 3] ≤ BYTES_PER_SECTOR) as Hp by (vm_compute; discriminate).
  refine (conj Hwf (conj Ht (conj Hs (conj Hne (conj Hp _))))).
  destruct (negative_track_aliases _ (-18) 0 [1; 2; 3] Hwf Ht Hs Hne Hp) as (_ & Hget & Hset).
  split; [exact Hget|exact Hset].
Defined.

(** X8. An address whose offset is -256, such as track -1, sector 15
    or track 0, sector -1, passes the checks; the read returns no bytes
    at all, and the write of a full sector succeeds and leaves a buffer
    of 143,616 bytes. *)
Theorem sector_before_zero_reads_empty (self : DiskImage) (track sector : Z) (p : bytes) :
  well_formed self →
  track < TRACKS_PER_DISK → sector < SECTORS_PER_TRACK →
  sector_offset track sector = - BYTES_PER_SECTOR →
  len p = BYTES_PER_SECTOR →
  get_sector self track sector = inr [] ∧
  ∃ self',
    set_sector self track sector p = inr self' ∧
    len (data self') = DISK_SIZE + BYTES_PER_SECTOR.
Proof.
  unfold well_formed. intros Hwf Ht Hs Hoff Hp.
  assert (BYTES_PER_SECTOR = 256) as HB by done.
  assert (DISK_SIZE = 143360) as HD by done.
  rewrite get_sector_below, set_sector_below by lia. rewrite Hoff, Hp. split.
  - f_equal. unfold getslice. rewrite Hwf.
    rewrite (slice_index_negative _ (- BYTES_PER_SECTOR)) by lia.
    rewrite (slice_index_in_range _ (- BYTES_PER_SECTOR + BYTES_PER_SECTOR)) by lia.
    match goal with |- take ?n _ = _ => replace n with 0%nat by lia end. done.
  - eexists. split; [done|]. cbn [data]. unfold setslice. rewrite Hwf.
    rewrite (slice_index_negative _ (- BYTES_PER_SECTOR)) by lia.
    rewrite (slice_index_in_range _ (- BYTES_PER_SECTOR + BYTES_PER_SECTOR)) by lia.
    unfold len in *. rewrite !length_app, length_take, length_drop. lia.
Qed.

Lemma sector_before_zero_reads_empty_witness :
  well_formed (DiskImage_init "dos33" "DISK") ∧
  -1 < TRACKS_PER_DISK ∧ 15 < SECTORS_PER_TRACK ∧
  sector_offset (-1) 15 = - BYTES_PER_SECTOR ∧
  len (bytearray 256) = BYTES_PER_SECTOR ∧
  get_sector (DiskImage_init "dos33" "DISK") (-1) 15 = inr [].
Proof.
  assert (well_formed (DiskImage_init "dos33" "DISK")) as Hwf by (vm_compute; reflexivity).
  assert (-1 < TRACKS_PER_DISK) as Ht by reflexivity.
  assert (15 < SECTORS_PER_TRACK) as Hs by reflexivity.
  assert (sector_offset (-1) 15 = - BYTES_PER_SECTOR) as Ho by reflexivity.
  assert (len (bytearray 256) = BYTES_PER_SECTOR) as Hp by reflexivity.
  refine (conj Hwf (conj Ht (conj Hs (conj Ho (conj Hp _))))).
  exact (proj1 (sector_before_zero_reads_empty _ (-1) 15 (bytearray 256) Hwf Ht Hs Ho Hp)).
Defined.

(** ** Formatting again, and what formatting leaves alone *)

Lemma formatted_well_formed (self : DiskImage) :
  well_formed self → well_formed (formatted self).
Proof. intros Hwf. by destruct (formatted_sectors self Hwf). Qed.

Lemma formatted_idempotent (self : DiskImage) :
  well_formed self → formatted (formatted self) = formatted self.
Proof.
  intros Hwf. apply DiskImage_eq; [done..|].
  unfold formatted. cbn [data]. unfold well_formed in Hwf.
  assert (len formatted_vtoc = 256) as Hv by done.
  assert (len formatted_catalog = 256) as Hc by done.
  assert (sector_offset 17 0 = 69632) as -> by done.
  assert (sector_offset 17 1 = 69888) as -> by done.
  assert (DISK_SIZE = 143360) as HD by done.
  rewrite Hv, Hc.
  apply list_eq. intros i.
  assert (∀ l : bytes, len l = DISK_SIZE →
            len (setslice l 69632 (69632 + 256) formatted_vtoc) = DISK_SIZE) as H0.
  { intros l Hl. rewrite <- Hv at 1. rewrite len_setslice; lia. }
  assert (∀ l : bytes, len l = DISK_SIZE →
            len (setslice l 69888 (69888 + 256) formatted_catalog) = DISK_SIZE) as H1.
  { intros l Hl. rewrite <- Hc at 1. rewrite len_setslice; lia. }
  assert (∀ (l : bytes) j, len l = DISK_SIZE →
            setslice l 69632 (69632 + 256) formatted_vtoc !! j
            = if decide (69632 ≤ Z.of_nat j < 69632 + 256)
              then formatted_vtoc !! (j - Z.to_nat 69632)%nat else l !! j) as L0.
  { intros l j Hl. rewrite <- Hv. apply lookup_setslice; lia. }
  assert (∀ (l : bytes) j, len l = DISK_SIZE →
            setslice l 69888 (69888 + 256) formatted_catalog !! j
            = if decide (69888 ≤ Z.of_nat j < 69888 + 256)
              then formatted_catalog !! (j - Z.to_nat 69888)%nat else l !! j) as L1.
  { intros l j Hl. rewrite <- Hc. apply lookup_setslice; lia. }
  rewrite !L1, !L0, !L1, !L0 by auto.
  repeat case_decide; try done; lia.
Qed.

(** X9. Formatting a buffer of 143,360 bytes in any state raises
    nothing, keeps the length of the buffer and the files, leaves every
    sector of the geometry other than the VTOC (17, 0) and the catalog
    (17, 1) as it was, and formatting its result again returns that
    result. *)
Theorem format_dos33_touches_two_sectors (self : DiskImage) (w : World) :
  well_formed self →
  ∃ self' w',
    format_dos33 self w = (inr self', w') ∧
    well_formed self' ∧
    files w' = files w ∧
    (∀ track sector, valid_address track sector →
       (track, sector) ≠ (DOS33_VTOC_TRACK, DOS33_VTOC_SECTOR) →
       (track, sector) ≠ (DOS33_CATALOG_TRACK, DOS33_CATALOG_SECTOR) →
       get_sector self' track sector = get_sector self track sector) ∧
    ∃ w'', format_dos33 self' w' = (inr self', w'').
Proof.
  intros Hwf. destruct (formatted_sectors self Hwf) as (Hwf' & _ & _ & Hother).
  eexists _, _. split; [apply format_dos33_run|].
  split; [done|]. split; [done|]. split; [exact Hother|].
  eexists. rewrite format_dos33_run. by rewrite formatted_idempotent.
Qed.

Lemma format_dos33_touches_two_sectors_witness :
  well_formed (boot_disk "POP_BOOT") ∧
  ∃ self' w',
    format_dos33 (boot_disk "POP_BOOT") empty_world = (inr self', w') ∧
    get_sector self' 0 0 = get_sector (boot_disk "POP_BOOT") 0 0.
Proof.
  assert (well_formed (boot_disk "POP_BOOT")) as Hwf by (vm_compute; reflexivity).
  split; [exact Hwf|].
  destruct (format_dos33_touches_two_sectors _ empty_world Hwf)
    as (self' & w' & Hrun & _ & _ & Hother & _).
  exists self', w'. split; [exact Hrun|].
  apply Hother; [vm_compute; intuition discriminate|discriminate..].
Defined.

(** ** The verifier on missing and truncated files *)


Lemma getitem_out_of_range (l : bytes) (i : Z) :
  0 ≤ i → len l ≤ i → getitem l i = inl IndexError.
Proof.
  intros Hi Hl. unfold getitem, item_index.
  destruct (Z.ltb_spec i 0); [lia|].
  destruct (Z.ltb_spec i (len l)); [lia|]. by rewrite andb_false_r.
Qed.

Lemma no_verdict_nil : no_verdict [].
Proof. split; apply not_elem_of_nil. Qed.

Lemma no_verdict_app (o1 o2 : list line) :
  no_verdict o1 → no_verdict o2 → no_verdict (o1 ++ o2).
Proof. intros [? ?] [? ?]. split; rewrite elem_of_app; tauto. Qed.

Lemma no_verdict_cons (l : line) (out : list line) :
  l ≠ ValidImage → l ≠ ImageMayHaveIssues → no_verdict out → no_verdict (l :: out).
Proof. intros ? ? [? ?]. split; rewrite elem_of_cons; intuition congruence. Qed.

Lemma no_verdict_size_report (size : Z) : no_verdict (size_report size).
Proof. split; intros H; apply elem_of_size_report in H; intuition congruence. Qed.

Lemma no_verdict_boot_report (boot_sector : bytes) : no_verdict (boot_report boot_sector).
Proof. split; intros H; apply elem_of_boot_report in H; intuition congruence. Qed.

Lemma no_verdict_geometry_report (t s : Z) : no_verdict (geometry_report t s).
Proof. split; intros H; apply elem_of_geometry_report in H; intuition congruence. Qed.

Section stops.
Context (fs : gmap string bytes).

Lemma stops_here {A B} (m : M A) (k : A → M B) e :
  stops fs m e → stops fs (m ≫= k) e.
Proof. intros (out & Hm & Hout). exists out. split; [by apply emits_raise_bind|done]. Qed.

Lemma stops_bind {A B} (m : M A) (k : A → M B) a o e :
  emits fs m (inr a) o → no_verdict o → stops fs (k a) e → stops fs (m ≫= k) e.
Proof.
  intros Hm Ho (out & Hk & Hout). exists (o ++ out).
  split; [by eapply emits_bind|by apply no_verdict_app].
Qed.

Lemma stops_print_bind {B} (l : line) (k : unit → M B) e :
  l ≠ ValidImage → l ≠ ImageMayHaveIssues → stops fs (k tt) e → stops fs (print l ≫= k) e.
Proof.
  intros H1 H2 Hk. eapply stops_bind; [apply emits_print| |exact Hk].
  by apply no_verdict_cons; [..|apply no_verdict_nil].
Qed.

Lemma stops_lift_bind {A B} (r0 : result A) (k : A → M B) a e :
  r0 = inr a → stops fs (k a) e → stops fs (lift r0 ≫= k) e.
Proof.
  intros -> Hk. eapply stops_bind; [apply emits_lift|apply no_verdict_nil|exact Hk].
Qed.

Lemma stops_lift_raise {A B} (r0 : result A) (k : A → M B) e :
  r0 = inl e → stops fs (lift r0 ≫= k) e.
Proof.
  intros ->. exists []. split; [by apply emits_lift_raise|apply no_verdict_nil].
Qed.

Lemma count_entry_emits (catalog : bytes) (i file_entries : Z) :
  0 ≤ 0x0B + i * 0x23 < len catalog →
  ∃ n out, emits fs (count_entry catalog i file_entries) (inr n) out ∧ no_verdict out.
Proof.
  intros Hi. unfold count_entry.
  destruct (negb (byte_at catalog (0x0B + i * 0x23) =? 0x00) &&
            negb (byte_at catalog (0x0B + i * 0x23) =? 0xFF)) eqn:Hlive.
  - eexists _, [_]. split.
    + eapply emits_lift_bind; [by apply getitem_byte_at|].
      rewrite Hlive. apply emits_print_bind, emits_ret.
    + by apply no_verdict_cons; [..|apply no_verdict_nil].
  - eexists _, []. split; [|apply no_verdict_nil].
    eapply emits_lift_bind; [by apply getitem_byte_at|].
    rewrite Hlive. apply emits_ret.
Qed.

(** The catalog loop stops at the first slot past the end of the sector. *)
Lemma count_entry_loop_stops (catalog : bytes) (slots : list Z) (file_entries : Z) :
  Forall (λ i, 0 ≤ 0x0B + i * 0x23) slots →
  Exists (λ i, len catalog ≤ 0x0B + i * 0x23) slots →
  stops fs (mfor slots (count_entry catalog) file_entries) IndexError.
Proof.
  intros Hpos Hshort. revert file_entries.
  induction Hpos as [|i slots Hi Hpos IH]; intros file_entries.
  - by apply Exists_nil in Hshort.
  - cbn [mfor].
    destruct (decide (0x0B + i * 0x23 < len catalog)) as [Hin|Hout].
    + destruct (count_entry_emits catalog i file_entries ltac:(lia))
        as (n & out & Hm & Hout).
      eapply stops_bind; [exact Hm|exact Hout|]. apply IH.
      apply Exists_cons in Hshort as [?|?]; [lia|done].
    + apply stops_here. unfold count_entry.
      apply stops_lift_raise, getitem_out_of_range; lia.
Qed.
End stops.

Ltac read_or_stop :=
  lazymatch goal with
  | |- stops _ (lift (getitem ?l ?i) ≫= _) _ =>
      destruct (decide (i < len l));
      [ eapply stops_lift_bind; [apply getitem_byte_at; lia|]
      | apply stops_lift_raise, getitem_out_of_range; lia ]
  end.

Lemma verify_disk_image_stops fs (disk_path : string) (image : bytes) :
  fs !! disk_path = Some image → len image < 70110 →
  stops fs (verify_disk_image disk_path) IndexError.
Proof.
  intros Hfile Hlen. unfold verify_disk_image.
  do 2 (apply stops_print_bind; [done..|]).
  eapply stops_bind; [apply emits_path_exists|apply no_verdict_nil|].
  rewrite Hfile, bool_decide_true by done. cbn [negb].
  eapply stops_bind; [by apply emits_stat_size|apply no_verdict_nil|].
  apply stops_print_bind; [done..|].
  eapply (stops_bind _ _ _ tt (size_report _)); [|apply no_verdict_size_report|].
  { apply emits_if; [|apply emits_print]. apply emits_print_bind, emits_print. }
  eapply stops_bind; [by apply emits_read_file|apply no_verdict_nil|].
  cbv zeta.
  do 2 (apply stops_print_bind; [done..|]).
  eapply (stops_bind _ _ _ tt (boot_report _)); [|apply no_verdict_boot_report|].
  { apply emits_if; [|apply emits_print]. apply emits_print_bind, emits_print. }
  apply stops_print_bind; [done..|].
  do 5 read_or_stop.
  do 5 (apply stops_print_bind; [done..|]).
  eapply (stops_bind _ _ _ tt (geometry_report _ _)); [|apply no_verdict_geometry_report|].
  { apply emits_if; apply emits_print. }
  apply stops_print_bind; [done..|].
  do 2 read_or_stop.
  apply stops_print_bind; [done..|].
  apply stops_here, count_entry_loop_stops.
  - apply Forall_range. intros i Hi. lia.
  - apply Exists_exists. exists 6. split; [by apply elem_of_range|].
    rewrite len_getslice by done. unfold BYTES_PER_SECTOR. lia.
Qed.

(** X11. On a file of fewer than 70,110 bytes that exists, the verifier
    does not return: it raises [IndexError], and prints neither of its
    two verdict lines. The files are as before. *)
Theorem verify_disk_image_truncated (disk_path : string) (image : bytes) (w : World) :
  files w !! disk_path = Some image → len image < 70110 →
  ∃ out,
    verify_disk_image disk_path w
      = (inl IndexError, {| files := files w; stdout := stdout w ++ out |}) ∧
    no_verdict out.
Proof.
  intros Hfile Hlen.
  destruct (verify_disk_image_stops (files w) disk_path image Hfile Hlen)
    as (out & Hrun & Hout1 & Hout2).
  exists out. split; [by apply emits_run|done].
Qed.

Lemma verify_disk_image_truncated_witness :
  files (world_with "disk.dsk" one_byte_image) !! "disk.dsk" = Some one_byte_image ∧
  len one_byte_image < 70110 ∧
  ∃ out,
    verify_disk_image "disk.dsk" (world_with "disk.dsk" one_byte_image)
      = (inl IndexError,
         {| files := files (world_with "disk.dsk" one_byte_image);
            stdout := stdout (world_with "disk.dsk" one_byte_image) ++ out |}) ∧
    no_verdict out.
Proof.
  assert (files (world_with "disk.dsk" one_byte_image) !! "disk.dsk" = Some one_byte_image)
    as Hfile by apply lookup_singleton_eq.
  assert (len one_byte_image < 70110) as Hlen by reflexivity.
  split; [exact Hfile|]. split; [exact Hlen|].
  exact (verify_disk_image_truncated "disk.dsk" one_byte_image _ Hfile Hlen).
Defined.




(** ** Counting the files of the first catalog sector *)







(** ** Formatting any image makes the verifier accept it *)

Lemma vtoc_of_formatted (self : DiskImage) :
  well_formed self → vtoc_of (data (formatted self)) = formatted_vtoc.
Proof.
  intros Hwf. destruct (formatted_sectors self Hwf) as (_ & Hvtoc & _).
  rewrite get_sector_below in Hvtoc by done. by injection Hvtoc.
Qed.

(** X10. Whatever a buffer of 143,360 bytes holds, after
    [format_dos33] and [save] the verifier returns [True] on the saved
    file, reports the correct size, a valid VTOC and DOS version 3, and
    the file holds the formatted buffer. *)
Theorem format_dos33_makes_image_valid (self : DiskImage) (path : string) (w : World) :
  well_formed self →
  ∃ out,
    format_then_verify self path w
      = (inr true,
         {| files := <[path:=data (formatted self)]> (files w);
            stdout := stdout w ++ out |}) ∧
    CorrectSize ∈ out ∧ ValidVtoc ∈ out ∧ DosVersion 3 ∈ out ∧ ValidImage ∈ out.
Proof.
  intros Hwf. pose proof (formatted_well_formed self Hwf) as Hlen.
  unfold well_formed in Hlen.
  assert (verdict (data (formatted self)) = true) as Hok.
  { unfold verdict. rewrite Hlen, vtoc_of_formatted by done. reflexivity. }
  destruct (report_checks path (data (formatted self)))
    as (Hsize & _ & Hgeometry & _ & Hversion & Hvalid & _).
  rewrite vtoc_of_formatted in Hgeometry, Hversion by done.
  exists ([FormattingDisk (name self); FilesystemCreated;
           DiskImageSaved path (len (data (formatted self)))]
          ++ report path (data (formatted self))).
  split.
  - unfold format_then_verify.
    unfold mbind at 1, M_bind at 1. rewrite format_dos33_run.
    unfold mbind at 1, M_bind at 1. rewrite save_run.
    rewrite verify_disk_image_run with (image := data (formatted self));
      [|apply lookup_insert_eq|rewrite Hlen; done].
    cbn [files stdout]. rewrite Hok. by rewrite <- !app_assoc.
  - rewrite !elem_of_app.
    split; [right; by apply Hsize|]. split; [right; by apply Hgeometry|].
    split; [right; by apply Hversion|]. right. by apply Hvalid.
Qed.

Lemma format_dos33_makes_image_valid_witness :
  well_formed (boot_disk "POP_BOOT") ∧
  ∃ out,
    format_then_verify (boot_disk "POP_BOOT") "disk.dsk" empty_world
      = (inr true,
         {| files := <["disk.dsk":=data (formatted (boot_disk "POP_BOOT"))]> (files empty_world);
            stdout := stdout empty_world ++ out |}) ∧
    ValidImage ∈ out.
Proof.
  assert (well_formed (boot_disk "POP_BOOT")) as Hwf by (vm_compute; reflexivity).
  split; [exact Hwf|].
  destruct (format_dos33_makes_image_valid _ "disk.dsk" empty_world Hwf)
    as (out & Hrun & _ & _ & _ & Hvalid).
  exists out. split; [exact Hrun|exact Hvalid].
Defined.

(** ** Rules for the callers *)

Section runs.
Context (fs : gmap string bytes).








End runs.






(** ** The boot disk *)















(** ** The data disk *)










(** ** The exit status of the verifier *)


